(** * T9 keypad firmware: TCA8418-style I2C keyboard emulation

    A shallow embedding of the firmware sketch (the full protocol variant
    with [onI2CReceive], [onI2CRequest], [scanKeypad], [queueKeyEvent],
    [enterSleep] and [loop]) and the properties of its event queue, of
    its register-addressed responder, of the matrix scan and of the
    sleep/wake control loop.

    Conventions.
    - A [uint8_t] is a [Z] in [0, 256); a store or an increment that can
      leave that range is wrapped with [u8].  [uint32_t] values (the
      [millis()] clock) are wrapped with [u32].
    - The global variables of the sketch are the fields of one record,
      [MCU]; every function of the sketch is a function on that record.
    - Arrays are lists updated by index ([<[i:=x]> l]) and read with
      [l !!! i].  An out-of-range store leaves the list as it is; the
      guards of the sketch keep every index in range.
    - The outside world (which interrupt ends a sleep, what [millis()]
      returns, which switches are closed, what the bus master wrote) is an
      explicit argument of the function that observes it.
    - Unless a definition says otherwise, a function runs as a unit: a
      bus callback or a wake interrupt is taken between two foreground
      operations, or inside the sleep.  The sketch masks no interrupt, so
      a handler can also run between two statements of a foreground
      function; [queueKeyEvent_preempted] is the enqueue with handlers
      taken at those points. *)

From Stdlib Require Import ZArith Lia.
From stdpp Require Import base numbers list sorting gmap.

Local Open Scope Z_scope.

(** ** Machine integers *)

Definition u8 (z : Z) : Z := z mod 256.
Definition u32 (z : Z) : Z := z mod 2 ^ 32.

(** ** Configuration constants *)

Definition I2C_SLAVE_ADDRESS : Z := 0x34.
Definition I2C_BUFFER_SIZE : Z := 16.

Definition ROWS : list Z := [2; 4; 5; 10].
Definition COLS : list Z := [3; 11; 12].
Definition ROW_COUNT : Z := 4.
Definition COL_COUNT : Z := 3.
Definition NUM_KEYS : Z := u8 (ROW_COUNT * COL_COUNT).

Definition INT_PIN_1 : Z := 6.
Definition INT_PIN_2 : Z := 7.

Definition DEBOUNCE_MS : Z := 20.
Definition SCAN_INTERVAL_MS : Z := 10.

(** Register numbers tested by [onI2CRequest]. *)
Definition REG_ID_PROBE : Z := 0x90.
Definition REG_KEY_EVENT : Z := 0x84.

(** ** Hardware state *)

Inductive Level : Type := LOW | HIGH.

Global Instance Level_eq_dec : EqDecision Level.
Proof. solve_decision. Defined.

(** The on-chip subsystems switched by the [power_*_enable] and
    [power_*_disable] calls of [enterSleep]. *)
Inductive Peripheral : Type := TIMER0 | TIMER1 | TIMER2 | SPI | USART0 | ADC.

Global Instance Peripheral_eq_dec : EqDecision Peripheral.
Proof. solve_decision. Defined.

Record Power : Type := mkPower {
  pw_timer0 : bool;
  pw_timer1 : bool;
  pw_timer2 : bool;
  pw_spi : bool;
  pw_usart0 : bool;
  pw_adc : bool
}.

Definition powered (p : Peripheral) (pw : Power) : bool :=
  match p with
  | TIMER0 => pw_timer0 pw
  | TIMER1 => pw_timer1 pw
  | TIMER2 => pw_timer2 pw
  | SPI => pw_spi pw
  | USART0 => pw_usart0 pw
  | ADC => pw_adc pw
  end.

Definition power_set (p : Peripheral) (b : bool) (pw : Power) : Power :=
  match p with
  | TIMER0 => mkPower b (pw_timer1 pw) (pw_timer2 pw) (pw_spi pw) (pw_usart0 pw) (pw_adc pw)
  | TIMER1 => mkPower (pw_timer0 pw) b (pw_timer2 pw) (pw_spi pw) (pw_usart0 pw) (pw_adc pw)
  | TIMER2 => mkPower (pw_timer0 pw) (pw_timer1 pw) b (pw_spi pw) (pw_usart0 pw) (pw_adc pw)
  | SPI => mkPower (pw_timer0 pw) (pw_timer1 pw) (pw_timer2 pw) b (pw_usart0 pw) (pw_adc pw)
  | USART0 => mkPower (pw_timer0 pw) (pw_timer1 pw) (pw_timer2 pw) (pw_spi pw) b (pw_adc pw)
  | ADC => mkPower (pw_timer0 pw) (pw_timer1 pw) (pw_timer2 pw) (pw_spi pw) (pw_usart0 pw) b
  end.

(** ** The globals of the sketch *)

Record MCU : Type := mkMCU {
  systemWakeUp : bool;
  i2cBuffer : list Z;
  i2cWriteIndex : Z;
  newKeyEvent : bool;
  lastScanTime : Z;
  lastKeyState : list Z;
  currentKeyState : list Z;
  currentRegister : Z;
  (* hardware *)
  pins : gmap Z Level;      (* output level last written to each pin *)
  power : Power;            (* which subsystems are clocked *)
  sleepEnabled : bool;      (* the SE bit: sleep_enable / sleep_disable *)
  interruptsOn : bool       (* the global interrupt flag: sei *)
}.

Definition set_systemWakeUp (v : bool) (s : MCU) : MCU :=
  mkMCU v (i2cBuffer s) (i2cWriteIndex s) (newKeyEvent s) (lastScanTime s)
        (lastKeyState s) (currentKeyState s) (currentRegister s)
        (pins s) (power s) (sleepEnabled s) (interruptsOn s).

Definition set_i2cBuffer (v : list Z) (s : MCU) : MCU :=
  mkMCU (systemWakeUp s) v (i2cWriteIndex s) (newKeyEvent s) (lastScanTime s)
        (lastKeyState s) (currentKeyState s) (currentRegister s)
        (pins s) (power s) (sleepEnabled s) (interruptsOn s).

Definition set_i2cWriteIndex (v : Z) (s : MCU) : MCU :=
  mkMCU (systemWakeUp s) (i2cBuffer s) v (newKeyEvent s) (lastScanTime s)
        (lastKeyState s) (currentKeyState s) (currentRegister s)
        (pins s) (power s) (sleepEnabled s) (interruptsOn s).

Definition set_newKeyEvent (v : bool) (s : MCU) : MCU :=
  mkMCU (systemWakeUp s) (i2cBuffer s) (i2cWriteIndex s) v (lastScanTime s)
        (lastKeyState s) (currentKeyState s) (currentRegister s)
        (pins s) (power s) (sleepEnabled s) (interruptsOn s).

Definition set_lastScanTime (v : Z) (s : MCU) : MCU :=
  mkMCU (systemWakeUp s) (i2cBuffer s) (i2cWriteIndex s) (newKeyEvent s) v
        (lastKeyState s) (currentKeyState s) (currentRegister s)
        (pins s) (power s) (sleepEnabled s) (interruptsOn s).

Definition set_lastKeyState (v : list Z) (s : MCU) : MCU :=
  mkMCU (systemWakeUp s) (i2cBuffer s) (i2cWriteIndex s) (newKeyEvent s) (lastScanTime s)
        v (currentKeyState s) (currentRegister s)
        (pins s) (power s) (sleepEnabled s) (interruptsOn s).

Definition set_currentKeyState (v : list Z) (s : MCU) : MCU :=
  mkMCU (systemWakeUp s) (i2cBuffer s) (i2cWriteIndex s) (newKeyEvent s) (lastScanTime s)
        (lastKeyState s) v (currentRegister s)
        (pins s) (power s) (sleepEnabled s) (interruptsOn s).

Definition set_currentRegister (v : Z) (s : MCU) : MCU :=
  mkMCU (systemWakeUp s) (i2cBuffer s) (i2cWriteIndex s) (newKeyEvent s) (lastScanTime s)
        (lastKeyState s) (currentKeyState s) v
        (pins s) (power s) (sleepEnabled s) (interruptsOn s).

Definition set_pins (v : gmap Z Level) (s : MCU) : MCU :=
  mkMCU (systemWakeUp s) (i2cBuffer s) (i2cWriteIndex s) (newKeyEvent s) (lastScanTime s)
        (lastKeyState s) (currentKeyState s) (currentRegister s)
        v (power s) (sleepEnabled s) (interruptsOn s).

Definition set_power (v : Power) (s : MCU) : MCU :=
  mkMCU (systemWakeUp s) (i2cBuffer s) (i2cWriteIndex s) (newKeyEvent s) (lastScanTime s)
        (lastKeyState s) (currentKeyState s) (currentRegister s)
        (pins s) v (sleepEnabled s) (interruptsOn s).

Definition set_sleepEnabled (v : bool) (s : MCU) : MCU :=
  mkMCU (systemWakeUp s) (i2cBuffer s) (i2cWriteIndex s) (newKeyEvent s) (lastScanTime s)
        (lastKeyState s) (currentKeyState s) (currentRegister s)
        (pins s) (power s) v (interruptsOn s).

Definition set_interruptsOn (v : bool) (s : MCU) : MCU :=
  mkMCU (systemWakeUp s) (i2cBuffer s) (i2cWriteIndex s) (newKeyEvent s) (lastScanTime s)
        (lastKeyState s) (currentKeyState s) (currentRegister s)
        (pins s) (power s) (sleepEnabled s) v.

(** [for (uint8_t i = 0; i < n; i++) body(i);] *)
Definition for_upto (n : Z) (body : Z -> MCU -> MCU) (s : MCU) : MCU :=
  foldl (fun st i => body i st) s (seqZ 0 n).

(** [a[i]] for a constant table or a [uint8_t] array. *)
Definition at_index (a : list Z) (i : Z) : Z := a !!! Z.to_nat i.

(** [a[i] = v] *)
Definition store (a : list Z) (i : Z) (v : Z) : list Z := <[Z.to_nat i := v]> a.

(** ** Event queue: [queueKeyEvent] *)

Definition queueKeyEvent (keyIndex pressed : Z) (s : MCU) : MCU :=
  if i2cWriteIndex s + 2 <=? I2C_BUFFER_SIZE then
    (* i2cBuffer[i2cWriteIndex++] = keyIndex; *)
    let s1 := set_i2cWriteIndex (u8 (i2cWriteIndex s + 1))
                (set_i2cBuffer (store (i2cBuffer s) (i2cWriteIndex s) (u8 keyIndex)) s) in
    (* i2cBuffer[i2cWriteIndex++] = pressed ? 0x80 : 0x00; *)
    let s2 := set_i2cWriteIndex (u8 (i2cWriteIndex s1 + 1))
                (set_i2cBuffer (store (i2cBuffer s1) (i2cWriteIndex s1)
                                      (if u8 pressed =? 0 then 0x00 else 0x80)) s1) in
    set_newKeyEvent true s2
  else s.

(** ** Bus callbacks: [onI2CReceive] and [onI2CRequest] *)

(** [Wire.read()]: the next received byte, or [-1] when none is left. *)
Definition Wire_read (rx : list Z) : Z * list Z :=
  match rx with
  | [] => (-1, [])
  | b :: rx' => (b, rx')
  end.

(** The [while (byteCount > 0 && Wire.available())] loop; [rx] is what is
    left in the receive buffer of the bus driver. *)
Fixpoint receive_data (byteCount : Z) (rx : list Z) (s : MCU) : MCU :=
  match rx with
  | [] => s
  | data :: rx' =>
      if 0 <? byteCount then
        let s' :=
          if i2cWriteIndex s <? I2C_BUFFER_SIZE then
            set_i2cWriteIndex (u8 (i2cWriteIndex s + 1))
              (set_i2cBuffer (store (i2cBuffer s) (i2cWriteIndex s) (u8 data)) s)
          else s in
        receive_data (byteCount - 1) rx' s'
      else s
  end.

Definition onI2CReceive (byteCount : Z) (rx : list Z) (s : MCU) : MCU :=
  if 0 <? byteCount then
    let '(b, rx') := Wire_read rx in
    receive_data (byteCount - 1) rx' (set_currentRegister (u8 b) s)
  else s.

(** The result is the bytes handed to [Wire.write] and the new state.
    [Wire.write(buf, n)] sends the first [n] bytes of [buf]. *)
Definition onI2CRequest (s : MCU) : list Z * MCU :=
  if currentRegister s =? REG_ID_PROBE then ([0x00], s)
  else if currentRegister s =? REG_KEY_EVENT then
    (take (Z.to_nat (i2cWriteIndex s)) (i2cBuffer s), set_i2cWriteIndex 0 s)
  else ([0x00], s).

(** A write transaction of the bus master: the driver calls the receive
    callback with the number of bytes it buffered. *)
Definition bus_write (bytes : list Z) (s : MCU) : MCU :=
  onI2CReceive (Z.of_nat (length bytes)) bytes s.

(** ** Pins and the switch matrix *)

Definition digitalWrite (pin : Z) (v : Level) (s : MCU) : MCU :=
  set_pins (<[pin := v]> (pins s)) s.

(** The row line [r] is driven to the active (low) level. *)
Definition row_low (s : MCU) (r : Z) : bool :=
  bool_decide (pins s !! at_index ROWS r = Some LOW).

(** The electrical model of the matrix.  [keys r c] says that the switch
    at row [r], column [c] is closed.  A column input has a pull-up: it
    reads [LOW] exactly when a closed switch of that column connects it
    to a row line that is driven low, [HIGH] otherwise. *)
Definition digitalRead (keys : Z -> Z -> bool) (pin : Z) (s : MCU) : Level :=
  if existsb (fun c =>
        (at_index COLS c =? pin) &&
        existsb (fun r => keys r c && row_low s r) (seqZ 0 ROW_COUNT))
      (seqZ 0 COL_COUNT)
  then LOW else HIGH.

Definition configureKeypadPins (s : MCU) : MCU :=
  for_upto ROW_COUNT (fun i => digitalWrite (at_index ROWS i) HIGH) s.

(** ** Matrix scan: [scanKeypad] *)

(** The body of the column loop. *)
Definition scan_col (keys : Z -> Z -> bool) (row col : Z) (s : MCU) : MCU :=
  let keyIndex := u8 (row * COL_COUNT + col) in
  let isPressed := if decide (digitalRead keys (at_index COLS col) s = LOW) then 1 else 0 in
  let s1 := set_currentKeyState (store (currentKeyState s) keyIndex isPressed) s in
  if negb (at_index (currentKeyState s1) keyIndex =? at_index (lastKeyState s1) keyIndex) then
    queueKeyEvent keyIndex isPressed
      (set_lastKeyState
         (store (lastKeyState s1) keyIndex (at_index (currentKeyState s1) keyIndex)) s1)
  else s1.

(** The body of the row loop. *)
Definition scan_row (keys : Z -> Z -> bool) (row : Z) (s : MCU) : MCU :=
  let s1 := for_upto ROW_COUNT (fun i => digitalWrite (at_index ROWS i) HIGH) s in
  let s2 := digitalWrite (at_index ROWS row) LOW s1 in
  (* delayMicroseconds(10) *)
  for_upto COL_COUNT (scan_col keys row) s2.

Definition scanKeypad (keys : Z -> Z -> bool) (s : MCU) : MCU :=
  let s1 := for_upto ROW_COUNT (scan_row keys) s in
  for_upto ROW_COUNT (fun i => digitalWrite (at_index ROWS i) HIGH) s1.

(** ** Interrupts and sleep: [enterSleep] *)

(** What ends a power-down sleep: one of the two wake lines, or a bus
    transaction addressed to the device. *)
Inductive Irq : Type :=
  | INT0_vect
  | INT1_vect
  | TWI_receive (rx : list Z)
  | TWI_request.

Definition ISR (irq : Irq) (s : MCU) : MCU :=
  match irq with
  | INT0_vect => set_systemWakeUp true s
  | INT1_vect => set_systemWakeUp true s
  | TWI_receive rx => bus_write rx s
  | TWI_request => snd (onI2CRequest s)
  end.

Definition power_disable (p : Peripheral) (s : MCU) : MCU :=
  set_power (power_set p false (power s)) s.

Definition power_enable (p : Peripheral) (s : MCU) : MCU :=
  set_power (power_set p true (power s)) s.

(** [sleep_cpu()] halts until an interrupt; its handler runs before the
    next instruction. *)
Definition sleep_cpu (irq : Irq) (s : MCU) : MCU := ISR irq s.

Definition enterSleep (irq : Irq) (s : MCU) : MCU :=
  let s := power_disable TIMER0 s in
  let s := power_disable TIMER1 s in
  let s := power_disable TIMER2 s in
  let s := power_disable SPI s in
  let s := power_disable USART0 s in
  let s := power_disable ADC s in
  let s := for_upto ROW_COUNT (fun i => digitalWrite (at_index ROWS i) LOW) s in
  (* set_sleep_mode(SLEEP_MODE_PWR_DOWN) *)
  let s := set_sleepEnabled true s in
  let s := set_interruptsOn true s in
  let s := sleep_cpu irq s in
  let s := set_sleepEnabled false s in
  let s := power_enable TIMER0 s in
  let s := power_enable USART0 s in
  for_upto ROW_COUNT (fun i => digitalWrite (at_index ROWS i) HIGH) s.

(** The subsystems [enterSleep] powers down before it halts. *)
Definition sleep_disabled : list Peripheral :=
  [TIMER0; TIMER1; TIMER2; SPI; USART0; ADC].

(** ** Control loop: [loop] *)

(** What one pass of [loop] observes of the outside world. *)
Record LoopInput : Type := mkLoopInput {
  wake : Irq;                 (* the interrupt that ends the sleep, if it sleeps *)
  now_scan : Z;               (* millis() read before the scan test *)
  now_hold : Z;               (* millis() read in the final test *)
  keys_closed : Z -> Z -> bool  (* the switches closed during the scan *)
}.

(** What one pass of [loop] does, in order. *)
Inductive Action : Type := ActSleep | ActScan.

Global Instance Action_eq_dec : EqDecision Action.
Proof. solve_decision. Defined.

Definition loop (inp : LoopInput) (s : MCU) : list Action * MCU :=
  let '(a1, s1) :=
    if negb (systemWakeUp s) then ([ActSleep], enterSleep (wake inp) s)
    else ([], s) in
  let s2 := set_systemWakeUp false s1 in
  let now := u32 (now_scan inp) in
  let '(a2, s3) :=
    if SCAN_INTERVAL_MS <=? u32 (now - lastScanTime s2) then
      ([ActScan], set_lastScanTime now (scanKeypad (keys_closed inp) s2))
    else ([], s2) in
  (* if (millis() - lastScanTime > DEBOUNCE_MS) { } : the body is empty *)
  let s4 := if DEBOUNCE_MS <? u32 (u32 (now_hold inp) - lastScanTime s3) then s3 else s3 in
  (a1 ++ a2, s4).

(** ** Power-on state and [setup] *)

Definition power_on : MCU :=
  mkMCU false (replicate 16 0) 0 false 0 (replicate 12 0) (replicate 12 0) 0
        ∅ (mkPower true true true true true true) false false.

(** [setup]: the rows become outputs at the idle level; the remaining
    calls configure pin directions, the bus address and the interrupt
    masks, which are not part of the state. *)
Definition setup (s : MCU) : MCU := configureKeypadPins s.

Definition boot : MCU := setup power_on.

(** ** Derived notions used by the statements *)

(** The bytes waiting in the event queue, oldest first. *)
Definition queued (s : MCU) : list Z :=
  take (Z.to_nat (i2cWriteIndex s)) (i2cBuffer s).

(** The free bytes of the queue. *)
Definition free_bytes (s : MCU) : Z := I2C_BUFFER_SIZE - i2cWriteIndex s.

(** The two bytes of an event on the wire. *)
Definition encode (keyIndex pressed : Z) : list Z :=
  [keyIndex; if pressed =? 0 then 0x00 else 0x80].

(** The array globals have their declared sizes. *)
Definition arrays_ok (s : MCU) : Prop :=
  length (i2cBuffer s) = 16%nat /\
  length (lastKeyState s) = 12%nat /\
  length (currentKeyState s) = 12%nat.

(** The queue invariant. *)
Definition index_ok (s : MCU) : Prop :=
  0 <= i2cWriteIndex s <= I2C_BUFFER_SIZE.

Definition is_u8 (z : Z) : Prop := 0 <= z < 256.

(** Enqueue a series of events, first to last. *)
Definition enqueue_all (evs : list (Z * Z)) (s : MCU) : MCU :=
  foldl (fun st e => queueKeyEvent (fst e) (snd e) st) s evs.

(** The wire bytes of a series of events. *)
Definition encode_all (evs : list (Z * Z)) : list Z :=
  concat ((fun e => encode (fst e) (snd e)) <$> evs).

Definition is_u8_event (e : Z * Z) : Prop := is_u8 (fst e) /\ is_u8 (snd e).

(** The events that still fit: two bytes each. *)
Definition admitted (evs : list (Z * Z)) (s : MCU) : list (Z * Z) :=
  take (Z.to_nat (free_bytes s / 2)) evs.

(** ** The scan, as the specification words it *)

(** Key indices in scan order: row-major, then column-major. *)
Definition key_indices : list Z := seqZ 0 NUM_KEYS.

(** What the scan senses for key [k = row * COL_COUNT + col]: 1 when its
    switch is closed, 0 when it is open. *)
Definition sensed (keys : Z -> Z -> bool) (k : Z) : Z :=
  if keys (k / COL_COUNT) (k mod COL_COUNT) then 1 else 0.

(** One event per key whose sensed state differs from the stored one, in
    scan order. *)
Definition transitions (keys : Z -> Z -> bool) (last : list Z) : list (Z * Z) :=
  (fun k => (k, sensed keys k)) <$>
  filter (fun k => sensed keys k <> at_index last k) key_indices.

(** All four rows written to the idle level, in the order of the loop. *)
Definition rows_idle (m : gmap Z Level) : gmap Z Level :=
  <[10 := HIGH]> (<[5 := HIGH]> (<[4 := HIGH]> (<[2 := HIGH]> m))).

(** The whole effect of one scan, in one step. *)
Definition scan_spec (keys : Z -> Z -> bool) (s : MCU) : MCU :=
  set_pins (rows_idle (pins s))
    (set_currentKeyState (sensed keys <$> key_indices)
       (set_lastKeyState (sensed keys <$> key_indices)
          (enqueue_all (transitions keys (lastKeyState s)) s))).

(** A run of scans, one per snapshot of the switches. *)
Definition scan_all (snaps : list (Z -> Z -> bool)) (s : MCU) : MCU :=
  foldl (fun st keys => scanKeypad keys st) s snaps.

(** ** The scan, one key at a time *)

(** The body of the column loop for key [k], with the column reading
    replaced by the state of the switch of that key. *)
Definition key_step (keys : Z -> Z -> bool) (k : Z) (s : MCU) : MCU :=
  let v := sensed keys k in
  let s1 := set_currentKeyState (store (currentKeyState s) k v) s in
  if negb (v =? at_index (lastKeyState s) k) then
    queueKeyEvent k v (set_lastKeyState (store (lastKeyState s) k v) s1)
  else s1.

(** The three keys of a row, in column order. *)
Definition row_steps (keys : Z -> Z -> bool) (row : Z) (s : MCU) : MCU :=
  key_step keys (row * COL_COUNT + 2)
    (key_step keys (row * COL_COUNT + 1)
       (key_step keys (row * COL_COUNT + 0) s)).

(** Exactly the row [row] is driven low. *)
Definition row_selected (row : Z) (m : gmap Z Level) : Prop :=
  Forall (fun r => m !! at_index ROWS r = Some (if decide (r = row) then LOW else HIGH))
         (seqZ 0 ROW_COUNT).

(** The pins once the scan has selected [row]. *)
Definition select_row (row : Z) (m : gmap Z Level) : gmap Z Level :=
  <[at_index ROWS row := LOW]> (rows_idle m).

(** The events of the first [n] keys of a scan. *)
Definition transitions_upto (keys : Z -> Z -> bool) (last : list Z) (n : Z)
  : list (Z * Z) :=
  (fun k => (k, sensed keys k)) <$>
  filter (fun k => sensed keys k <> at_index last k) (seqZ 0 n).

(** The state once the first [n] keys of a scan have been handled. *)
Definition scanned_upto (keys : Z -> Z -> bool) (n : nat) (s : MCU) : MCU :=
  set_currentKeyState
    ((sensed keys <$> seqZ 0 (Z.of_nat n)) ++ drop n (currentKeyState s))
    (set_lastKeyState
       ((sensed keys <$> seqZ 0 (Z.of_nat n)) ++ drop n (lastKeyState s))
       (enqueue_all (transitions_upto keys (lastKeyState s) (Z.of_nat n)) s)).

(** ** Runs of the firmware *)

(** Everything that can happen to the globals: the foreground operations
    and the callbacks, each taken as a unit. *)
Inductive Op : Type :=
  | OpEnqueue (keyIndex pressed : Z)
  | OpReceive (byteCount : Z) (rx : list Z)
  | OpRequest
  | OpScan (keys : Z -> Z -> bool)
  | OpInterrupt (irq : Irq)
  | OpLoop (inp : LoopInput).

Definition run_op (s : MCU) (op : Op) : MCU :=
  match op with
  | OpEnqueue keyIndex pressed => queueKeyEvent keyIndex pressed s
  | OpReceive byteCount rx => onI2CReceive byteCount rx s
  | OpRequest => snd (onI2CRequest s)
  | OpScan keys => scanKeypad keys s
  | OpInterrupt irq => ISR irq s
  | OpLoop inp => snd (loop inp s)
  end.

Definition run (ops : list Op) (s : MCU) : MCU := foldl run_op s ops.

(** A snapshot of the switch matrix used in examples: key 5 (row 1,
    column 2) held down, every other switch open. *)
Definition key5_down : Z -> Z -> bool := fun r c => (r =? 1) && (c =? 2).

(** ** [queueKeyEvent] with interrupts between its statements *)

(** [i2cBuffer[i2cWriteIndex++] = v;] *)
Definition push_byte (v : Z) (s : MCU) : MCU :=
  set_i2cWriteIndex (u8 (i2cWriteIndex s + 1))
    (set_i2cBuffer (store (i2cBuffer s) (i2cWriteIndex s) v) s).

(** The handlers of a series of interrupts, in order of arrival. *)
Definition interrupts (irqs : list Irq) (s : MCU) : MCU :=
  foldl (fun st irq => ISR irq st) s irqs.

(** [queueKeyEvent] when the interrupts of [after_guard] arrive once the
    guard has been evaluated, and those of [after_first] once the first
    byte has been stored.  The globals are volatile and nothing in the
    sketch disables interrupts around these statements, so each statement
    reads the write index the handlers have left. *)
Definition queueKeyEvent_preempted (keyIndex pressed : Z)
    (after_guard after_first : list Irq) (s : MCU) : MCU :=
  if i2cWriteIndex s + 2 <=? I2C_BUFFER_SIZE then
    let s1 := interrupts after_guard s in
    (* i2cBuffer[i2cWriteIndex++] = keyIndex; *)
    let s2 := push_byte (u8 keyIndex) s1 in
    let s3 := interrupts after_first s2 in
    (* i2cBuffer[i2cWriteIndex++] = pressed ? 0x80 : 0x00; *)
    let s4 := push_byte (if u8 pressed =? 0 then 0x00 else 0x80) s3 in
    set_newKeyEvent true s4
  else s.

(** ** The two halves of [enterSleep] *)

(** [enterSleep] up to the halt: what the chip looks like while asleep. *)
Definition sleep_prepare (s : MCU) : MCU :=
  let s := power_disable TIMER0 s in
  let s := power_disable TIMER1 s in
  let s := power_disable TIMER2 s in
  let s := power_disable SPI s in
  let s := power_disable USART0 s in
  let s := power_disable ADC s in
  let s := for_upto ROW_COUNT (fun i => digitalWrite (at_index ROWS i) LOW) s in
  let s := set_sleepEnabled true s in
  set_interruptsOn true s.

(** [enterSleep] from the wake-up on. *)
Definition sleep_resume (s : MCU) : MCU :=
  let s := set_sleepEnabled false s in
  let s := power_enable TIMER0 s in
  let s := power_enable USART0 s in
  for_upto ROW_COUNT (fun i => digitalWrite (at_index ROWS i) HIGH) s.

(** The two external wake lines. *)
Definition is_wake_line (irq : Irq) : Prop :=
  match irq with
  | INT0_vect | INT1_vect => True
  | _ => False
  end.

(** ** Bus traffic and runs without write data *)

(** The master selects each register of [regs] in turn and reads it. *)
Definition probe_all (regs : list Z) (s : MCU) : MCU :=
  foldl (fun st reg => snd (onI2CRequest (bus_write [reg] st))) s regs.

(** A write transaction that carries a register selector at most. *)
Definition selector_only (byteCount : Z) (rx : list Z) : Prop :=
  byteCount <= 1 \/ (length rx <= 1)%nat.

Definition irq_without_data (irq : Irq) : Prop :=
  match irq with
  | TWI_receive rx => (length rx <= 1)%nat
  | _ => True
  end.

Definition op_without_data (op : Op) : Prop :=
  match op with
  | OpReceive byteCount rx => selector_only byteCount rx
  | OpInterrupt irq => irq_without_data irq
  | OpLoop inp => irq_without_data (wake inp)
  | _ => True
  end.

(** The queue holds the two bytes of each of a series of events, and
    nothing else. *)
Definition whole_events (s : MCU) : Prop :=
  exists evs, queued s = encode_all evs /\ Forall is_u8_event evs.

(** Every stored key state is 0 or 1. *)
Definition key_states_ok (s : MCU) : Prop :=
  Forall (fun v => v = 0 \/ v = 1) (lastKeyState s) /\
  Forall (fun v => v = 0 \/ v = 1) (currentKeyState s).

(** What every reachable state satisfies. *)
Definition well_formed (s : MCU) : Prop :=
  arrays_ok s /\ index_ok s /\ key_states_ok s.

(** Exactly the switch at ([row], [col]) is closed. *)
Definition only_key (row col : Z) : Z -> Z -> bool :=
  fun r c => (r =? row) && (c =? col).

(** No switch is closed. *)
Definition no_key : Z -> Z -> bool := fun _ _ => false.

(** * The demonstration sketch

    The reduced variant of the firmware: it sleeps at the start of every
    pass and toggles the built-in LED when a pin-change interrupt woke it.
    The number of the LED pin comes from the board package, so it is an
    argument here. *)
Module Demo.

Definition rows : list Z := [2; 4; 5; 10].
Definition ROW_COUNT : Z := 4.
Definition cols : list Z := [3; 11; 12].
Definition COL_COUNT : Z := 3.

Record State : Type := mkState {
  wokeUp : bool;
  pins : gmap Z Level   (* output level last written to each pin *)
}.

Definition digitalWrite (pin : Z) (v : Level) (s : State) : State :=
  mkState (wokeUp s) (<[pin := v]> (pins s)).

(** Reading an output pin gives the level last written, low after reset. *)
Definition digitalRead (pin : Z) (s : State) : Level :=
  default LOW (pins s !! pin).

(** [!level] as the argument of [digitalWrite]. *)
Definition lnot (v : Level) : Level :=
  match v with LOW => HIGH | HIGH => LOW end.

Definition for_upto (n : Z) (body : Z -> State -> State) (s : State) : State :=
  foldl (fun st i => body i st) s (seqZ 0 n).

(** The two pin-change vectors, the only interrupts the sketch enables. *)
Inductive Irq : Type := PCINT2_vect | PCINT0_vect.

Definition ISR (irq : Irq) (s : State) : State :=
  match irq with
  | PCINT2_vect => mkState true (pins s)
  | PCINT0_vect => mkState true (pins s)
  end.

(** [setup]: rows high; pin directions and the pin-change masks are not
    part of the state. *)
Definition setup (s : State) : State :=
  for_upto ROW_COUNT (fun i => digitalWrite (at_index rows i) HIGH) s.



Definition enterSleep (irq : Irq) (s : State) : State :=
  let s := for_upto ROW_COUNT (fun i => digitalWrite (at_index rows i) LOW) s in
  (* set_sleep_mode; sleep_enable; sei; sleep_cpu *)
  let s := ISR irq s in
  (* sleep_disable *)
  for_upto ROW_COUNT (fun i => digitalWrite (at_index rows i) HIGH) s.

Definition loop (LED_BUILTIN : Z) (irq : Irq) (s : State) : State :=
  let s := enterSleep irq s in
  if wokeUp s then
    let s := mkState false (pins s) in
    digitalWrite LED_BUILTIN (lnot (digitalRead LED_BUILTIN s)) s
    (* delay(100) *)
  else s.

(** One pass of [loop] per interrupt of [irqs]. *)
Definition passes (LED_BUILTIN : Z) (irqs : list Irq) (s : State) : State :=
  foldl (fun st irq => loop LED_BUILTIN irq st) s irqs.

End Demo.

(** * Proofs *)

(** ** Machine integers *)

Lemma u8_small z : is_u8 z -> u8 z = z.
Proof. unfold is_u8, u8. intros H. apply Z.mod_small. lia. Qed.

Lemma u8_is_u8 z : is_u8 (u8 z).
Proof. unfold is_u8, u8. apply Z.mod_pos_bound. lia. Qed.

(** ** Array stores and the queue prefix *)

Lemma length_store a i v : length (store a i v) = length a.
Proof. unfold store. apply length_insert. Qed.

Lemma at_index_store_eq a i v :
  0 <= i -> (Z.to_nat i < length a)%nat -> at_index (store a i v) i = v.
Proof.
  intros _ Hlt. unfold at_index, store.
  apply list_lookup_total_insert_eq. exact Hlt.
Qed.

Lemma take_store_snoc a i v :
  0 <= i -> (Z.to_nat i < length a)%nat ->
  take (Z.to_nat (i + 1)) (store a i v) = take (Z.to_nat i) a ++ [v].
Proof.
  intros Hi Hlt. unfold store.
  replace (Z.to_nat (i + 1)) with (S (Z.to_nat i)) by lia.
  rewrite (take_S_r _ _ v).
  - rewrite take_insert_ge by lia. reflexivity.
  - apply list_lookup_insert_eq. exact Hlt.
Qed.

(** ** [queueKeyEvent] *)

Lemma queueKeyEvent_full k p s :
  free_bytes s < 2 -> queueKeyEvent k p s = s.
Proof.
  unfold free_bytes, queueKeyEvent, I2C_BUFFER_SIZE. intros H.
  destruct (Z.leb_spec (i2cWriteIndex s + 2) 16); [lia | reflexivity].
Qed.

Lemma queueKeyEvent_room k p s :
  length (i2cBuffer s) = 16%nat -> 0 <= i2cWriteIndex s -> 2 <= free_bytes s ->
  i2cWriteIndex (queueKeyEvent k p s) = i2cWriteIndex s + 2 /\
  queued (queueKeyEvent k p s) = queued s ++ encode (u8 k) (u8 p) /\
  length (i2cBuffer (queueKeyEvent k p s)) = 16%nat.
Proof.
  unfold free_bytes, queueKeyEvent, queued, encode, I2C_BUFFER_SIZE.
  intros Hlen Hlo Hfree.
  destruct (Z.leb_spec (i2cWriteIndex s + 2) 16) as [_ | ?]; [| lia].
  cbn [i2cWriteIndex i2cBuffer set_newKeyEvent set_i2cWriteIndex set_i2cBuffer].
  assert (Hw : u8 (i2cWriteIndex s + 1) = i2cWriteIndex s + 1)
    by (apply u8_small; unfold is_u8; lia).
  rewrite Hw.
  assert (Hw2 : u8 (i2cWriteIndex s + 1 + 1) = i2cWriteIndex s + 2)
    by (rewrite u8_small by (unfold is_u8; lia); lia).
  rewrite Hw2. split; [reflexivity |]. split.
  - replace (i2cWriteIndex s + 2) with (i2cWriteIndex s + 1 + 1) by lia.
    rewrite take_store_snoc by (rewrite ?length_store; lia).
    rewrite take_store_snoc by lia.
    rewrite <- app_assoc. reflexivity.
  - rewrite !length_store. exact Hlen.
Qed.

Lemma queueKeyEvent_index_ok k p s : index_ok s -> index_ok (queueKeyEvent k p s).
Proof.
  unfold index_ok, queueKeyEvent, I2C_BUFFER_SIZE. intros H.
  destruct (Z.leb_spec (i2cWriteIndex s + 2) 16) as [Hle | ?]; [| exact H].
  cbn [i2cWriteIndex i2cBuffer set_newKeyEvent set_i2cWriteIndex set_i2cBuffer].
  rewrite (u8_small (i2cWriteIndex s + 1)) by (unfold is_u8; lia).
  rewrite u8_small by (unfold is_u8; lia). lia.
Qed.

(** [queueKeyEvent] reads and writes the queue fields only. *)
Lemma queueKeyEvent_others k p s :
  systemWakeUp (queueKeyEvent k p s) = systemWakeUp s /\
  lastScanTime (queueKeyEvent k p s) = lastScanTime s /\
  lastKeyState (queueKeyEvent k p s) = lastKeyState s /\
  currentKeyState (queueKeyEvent k p s) = currentKeyState s /\
  currentRegister (queueKeyEvent k p s) = currentRegister s /\
  pins (queueKeyEvent k p s) = pins s /\
  power (queueKeyEvent k p s) = power s.
Proof.
  unfold queueKeyEvent. destruct (_ <=? _); repeat split; reflexivity.
Qed.

(** ** Series of enqueues *)

Lemma enqueue_all_full evs s :
  free_bytes s < 2 -> enqueue_all evs s = s.
Proof.
  intros Hfull. induction evs as [| e evs IH]; [reflexivity |].
  unfold enqueue_all in *. cbn [foldl].
  rewrite queueKeyEvent_full by exact Hfull. exact IH.
Qed.

Lemma enqueue_all_queued evs : forall s,
  length (i2cBuffer s) = 16%nat -> index_ok s -> Forall is_u8_event evs ->
  queued (enqueue_all evs s) = queued s ++ encode_all (admitted evs s) /\
  length (i2cBuffer (enqueue_all evs s)) = 16%nat /\
  index_ok (enqueue_all evs s).
Proof.
  induction evs as [| [k p] evs IH]; intros s Hlen Hidx Hev.
  - unfold admitted, encode_all. rewrite take_nil. cbn. rewrite app_nil_r. auto.
  - apply Forall_cons in Hev as [[Hk Hp] Hev]. cbn in Hk, Hp.
    destruct (Z.lt_ge_cases (free_bytes s) 2) as [Hfull | Hroom].
    + rewrite enqueue_all_full by exact Hfull.
      unfold admitted.
      replace (free_bytes s / 2) with 0
        by (unfold index_ok, free_bytes, I2C_BUFFER_SIZE in *;
            symmetry; apply Z.div_small; lia).
      cbn. unfold encode_all. cbn. rewrite app_nil_r. auto.
    + unfold index_ok in Hidx.
      destruct (queueKeyEvent_room k p s Hlen (proj1 Hidx) Hroom) as (Hi & Hq & Hl).
      assert (Hidx' : index_ok (queueKeyEvent k p s))
        by (apply queueKeyEvent_index_ok; exact Hidx).
      destruct (IH (queueKeyEvent k p s) Hl Hidx' Hev) as (IHq & IHl & IHi).
      change (enqueue_all ((k, p) :: evs) s)
        with (enqueue_all evs (queueKeyEvent k p s)).
      split; [| split; assumption].
      rewrite IHq, Hq, !u8_small by assumption.
      unfold admitted, free_bytes in *. rewrite Hi.
      replace (Z.to_nat ((I2C_BUFFER_SIZE - i2cWriteIndex s) / 2))
        with (S (Z.to_nat ((I2C_BUFFER_SIZE - (i2cWriteIndex s + 2)) / 2))).
      * cbn [take]. unfold encode_all. cbn [fmap list_fmap concat fst snd].
        rewrite <- app_assoc. reflexivity.
      * replace (I2C_BUFFER_SIZE - i2cWriteIndex s)
          with ((I2C_BUFFER_SIZE - (i2cWriteIndex s + 2)) + 1 * 2) by lia.
        rewrite Z.div_add by lia.
        assert (0 <= (I2C_BUFFER_SIZE - (i2cWriteIndex s + 2)) / 2)
          by (apply Z.div_pos; lia).
        lia.
Qed.

(** ** The bus callbacks *)

Lemma receive_data_index_ok rx : forall n s,
  index_ok s -> index_ok (receive_data n rx s).
Proof.
  induction rx as [| d rx IH]; intros n s H; cbn [receive_data]; [exact H |].
  destruct (0 <? n); [| exact H]. apply IH.
  unfold index_ok, I2C_BUFFER_SIZE in *.
  destruct (Z.ltb_spec (i2cWriteIndex s) 16); [| exact H].
  cbn [i2cWriteIndex set_i2cWriteIndex set_i2cBuffer].
  rewrite u8_small by (unfold is_u8; lia). lia.
Qed.

Lemma receive_data_register rx : forall n s,
  currentRegister (receive_data n rx s) = currentRegister s.
Proof.
  induction rx as [| d rx IH]; intros n s; cbn [receive_data]; [reflexivity |].
  destruct (0 <? n); [| reflexivity]. rewrite IH.
  destruct (_ <? _); reflexivity.
Qed.

Lemma onI2CReceive_index_ok n rx s : index_ok s -> index_ok (onI2CReceive n rx s).
Proof.
  intros H. unfold onI2CReceive. destruct (0 <? n); [| exact H].
  destruct (Wire_read rx) as [b rx']. apply receive_data_index_ok. exact H.
Qed.

Lemma onI2CRequest_index_ok s : index_ok s -> index_ok (snd (onI2CRequest s)).
Proof.
  intros H. unfold onI2CRequest.
  destruct (_ =? REG_ID_PROBE); [exact H |].
  destruct (_ =? REG_KEY_EVENT); [| exact H].
  unfold index_ok, I2C_BUFFER_SIZE. cbn. lia.
Qed.

(** The register selected by a write is its first byte. *)
Lemma bus_write_selects reg data s :
  currentRegister (bus_write (reg :: data) s) = u8 reg.
Proof.
  unfold bus_write, onI2CReceive. cbn [length].
  destruct (Z.ltb_spec 0 (Z.of_nat (S (length data)))); [| lia].
  cbn [Wire_read]. apply receive_data_register.
Qed.

Lemma onI2CRequest_event s :
  currentRegister s = REG_KEY_EVENT ->
  onI2CRequest s = (queued s, set_i2cWriteIndex 0 s).
Proof.
  intros H. unfold onI2CRequest. rewrite H. reflexivity.
Qed.

Lemma enqueue_all_register evs : forall s,
  currentRegister (enqueue_all evs s) = currentRegister s.
Proof.
  induction evs as [| e evs IH]; intros s; [reflexivity |].
  change (enqueue_all (e :: evs) s)
    with (enqueue_all evs (queueKeyEvent (fst e) (snd e) s)).
  rewrite IH. apply queueKeyEvent_others.
Qed.

(** One data byte after the register selector lands in the event queue. *)
Lemma bus_write_data_queued reg d s :
  length (i2cBuffer s) = 16%nat -> 0 <= i2cWriteIndex s < I2C_BUFFER_SIZE ->
  queued (bus_write [reg; d] s) = queued s ++ [u8 d].
Proof.
  unfold I2C_BUFFER_SIZE. intros Hlen Hidx.
  unfold bus_write, onI2CReceive, queued. cbn.
  unfold I2C_BUFFER_SIZE.
  destruct (Z.ltb_spec (i2cWriteIndex s) 16); [| lia].
  cbn. rewrite u8_small by (unfold is_u8; lia).
  apply take_store_snoc; lia.
Qed.

(** ** Claims about the queue and the responder *)

(** C1: a read with the event-buffer register (0x84) selected returns the
    queue, oldest byte first, and empties it; read again at once, it
    returns no byte; and after any series of enqueues that follows, the
    next such read returns exactly the bytes of the events the queue
    admitted since (two per event, in the order of the calls). *)
Theorem event_read_returns_enqueued_bytes s :
  length (i2cBuffer s) = 16%nat -> index_ok s ->
  currentRegister s = REG_KEY_EVENT ->
  let s' := snd (onI2CRequest s) in
  fst (onI2CRequest s) = queued s /\
  i2cWriteIndex s' = 0 /\
  queued s' = [] /\
  fst (onI2CRequest s') = [] /\
  forall evs, Forall is_u8_event evs ->
    fst (onI2CRequest (enqueue_all evs s')) = encode_all (take 8 evs) /\
    queued (snd (onI2CRequest (enqueue_all evs s'))) = [].
Proof.
  intros Hlen Hidx Hreg. cbn zeta.
  rewrite (onI2CRequest_event s Hreg). cbn [fst snd].
  assert (Hreg' : currentRegister (set_i2cWriteIndex 0 s) = REG_KEY_EVENT)
    by exact Hreg.
  split; [reflexivity |]. split; [reflexivity |]. split; [reflexivity |].
  split; [rewrite (onI2CRequest_event _ Hreg'); reflexivity |].
  intros evs Hev.
  assert (Hr : currentRegister (enqueue_all evs (set_i2cWriteIndex 0 s))
               = REG_KEY_EVENT)
    by (rewrite enqueue_all_register; exact Hreg').
  rewrite (onI2CRequest_event _ Hr). cbn [fst snd].
  split; [| reflexivity].
  assert (Hidx0 : index_ok (set_i2cWriteIndex 0 s))
    by (unfold index_ok, I2C_BUFFER_SIZE; cbn; lia).
  destruct (enqueue_all_queued evs (set_i2cWriteIndex 0 s) Hlen Hidx0 Hev)
    as (Hq & _ & _).
  rewrite Hq. reflexivity.
Qed.

Lemma event_read_returns_enqueued_bytes_witness :
  let s := enqueue_all [(3, 1); (7, 1)] (bus_write [0x84] boot) in
  fst (onI2CRequest s) = [3; 0x80; 7; 0x80] /\
  fst (onI2CRequest (snd (onI2CRequest s))) = [].
Proof.
  cbn zeta.
  destruct (event_read_returns_enqueued_bytes
              (enqueue_all [(3, 1); (7, 1)] (bus_write [0x84] boot)))
    as (H1 & _ & _ & H4 & _).
  - vm_compute. reflexivity.
  - vm_compute. split; discriminate.
  - vm_compute. reflexivity.
  - split; [rewrite H1; vm_compute; reflexivity | exact H4].
Defined.

(** C6: with fewer than two free bytes the enqueue changes nothing: the
    buffered bytes and the write index stay as they were and neither byte
    of the new event is stored. *)
Theorem enqueue_without_room_drops_event s keyIndex pressed :
  free_bytes s < 2 ->
  queueKeyEvent keyIndex pressed s = s /\
  i2cBuffer (queueKeyEvent keyIndex pressed s) = i2cBuffer s /\
  i2cWriteIndex (queueKeyEvent keyIndex pressed s) = i2cWriteIndex s /\
  queued (queueKeyEvent keyIndex pressed s) = queued s.
Proof.
  intros H. rewrite (queueKeyEvent_full keyIndex pressed s H). auto.
Qed.

Lemma enqueue_without_room_drops_event_witness :
  let s := set_i2cWriteIndex 15 boot in
  free_bytes s < 2 /\ queueKeyEvent 3 1 s = s.
Proof.
  cbn zeta. split.
  - vm_compute. reflexivity.
  - apply (enqueue_without_room_drops_event (set_i2cWriteIndex 15 boot) 3 1).
    vm_compute. reflexivity.
Defined.

(** C8: with the identification-probe register (0x90) selected, a read
    returns the single byte 0x00 and leaves the whole state, the queue
    included, as it was; this holds in every state, so after any writes. *)
Theorem id_probe_read_returns_zero s :
  currentRegister s = REG_ID_PROBE ->
  onI2CRequest s = ([0x00], s) /\
  queued (snd (onI2CRequest s)) = queued s.
Proof.
  intros H. unfold onI2CRequest. rewrite H. cbn. auto.
Qed.

Lemma id_probe_read_returns_zero_witness :
  let s := bus_write [0x90; 7; 9] (queueKeyEvent 5 1 boot) in
  currentRegister s = REG_ID_PROBE /\ onI2CRequest s = ([0x00], s).
Proof.
  cbn zeta. split.
  - vm_compute. reflexivity.
  - apply (id_probe_read_returns_zero
             (bus_write [0x90; 7; 9] (queueKeyEvent 5 1 boot))).
    vm_compute. reflexivity.
Defined.

(** C9: from an empty queue, a press of key 5, then a release of key 5,
    then a read of the event-buffer register returns 5, 0x80, 5, 0x00. *)
Theorem press_release_key5_bytes s :
  length (i2cBuffer s) = 16%nat ->
  i2cWriteIndex s = 0 ->
  currentRegister s = REG_KEY_EVENT ->
  fst (onI2CRequest (queueKeyEvent 5 0 (queueKeyEvent 5 1 s))) = [5; 0x80; 5; 0x00].
Proof.
  intros Hlen Hidx Hreg.
  change (queueKeyEvent 5 0 (queueKeyEvent 5 1 s))
    with (enqueue_all [(5, 1); (5, 0)] s).
  rewrite onI2CRequest_event by (rewrite enqueue_all_register; exact Hreg).
  cbn [fst].
  assert (Hok : index_ok s)
    by (unfold index_ok, I2C_BUFFER_SIZE; rewrite Hidx; lia).
  assert (Hev : Forall is_u8_event [(5, 1); (5, 0)]).
  { repeat constructor; cbn; lia. }
  destruct (enqueue_all_queued _ s Hlen Hok Hev) as (Hq & _ & _).
  rewrite Hq. unfold queued, admitted, free_bytes. rewrite Hidx. reflexivity.
Qed.

Lemma press_release_key5_bytes_witness :
  fst (onI2CRequest (queueKeyEvent 5 0 (queueKeyEvent 5 1 (bus_write [0x84] boot))))
  = [5; 0x80; 5; 0x00].
Proof.
  apply (press_release_key5_bytes (bus_write [0x84] boot));
    vm_compute; reflexivity.
Defined.

(** C10: with at least two free bytes, the enqueue of (keyIndex, pressed)
    keeps the bytes already buffered, appends keyIndex and then 0x80 for
    a press or 0x00 for a release, and moves the write index up by 2. *)
Theorem enqueue_with_room_appends_event s keyIndex pressed :
  length (i2cBuffer s) = 16%nat -> 0 <= i2cWriteIndex s -> 2 <= free_bytes s ->
  is_u8 keyIndex -> is_u8 pressed ->
  let s' := queueKeyEvent keyIndex pressed s in
  i2cWriteIndex s' = i2cWriteIndex s + 2 /\
  queued s' = queued s ++ [keyIndex; if pressed =? 0 then 0x00 else 0x80] /\
  take (Z.to_nat (i2cWriteIndex s)) (i2cBuffer s') = queued s /\
  drop (Z.to_nat (i2cWriteIndex s + 2)) (i2cBuffer s')
    = drop (Z.to_nat (i2cWriteIndex s + 2)) (i2cBuffer s).
Proof.
  intros Hlen Hlo Hfree Hk Hp. cbn zeta.
  destruct (queueKeyEvent_room keyIndex pressed s Hlen Hlo Hfree) as (Hi & Hq & Hl).
  rewrite !u8_small in Hq by assumption. unfold encode in Hq.
  split; [exact Hi |]. split; [exact Hq |]. split.
  - unfold queued in Hq. rewrite Hi in Hq.
    apply (f_equal (take (Z.to_nat (i2cWriteIndex s)))) in Hq.
    rewrite take_take in Hq.
    replace (Z.to_nat (i2cWriteIndex s) `min` Z.to_nat (i2cWriteIndex s + 2))%nat
      with (Z.to_nat (i2cWriteIndex s)) in Hq by lia.
    rewrite Hq. rewrite take_app_le.
    + rewrite take_take. unfold queued. f_equal. lia.
    + unfold free_bytes, I2C_BUFFER_SIZE in Hfree.
      rewrite length_take. lia.
  - unfold queueKeyEvent, free_bytes, I2C_BUFFER_SIZE in *.
    destruct (Z.leb_spec (i2cWriteIndex s + 2) 16) as [_ | ?]; [| lia].
    cbn [i2cWriteIndex i2cBuffer set_newKeyEvent set_i2cWriteIndex set_i2cBuffer].
    unfold store.
    rewrite (u8_small (i2cWriteIndex s + 1)) by (unfold is_u8; lia).
    rewrite !drop_insert_lt by lia. reflexivity.
Qed.

Lemma enqueue_with_room_appends_event_witness :
  let s := queueKeyEvent 2 1 boot in
  queued s = [2; 0x80] /\ queued (queueKeyEvent 5 0 s) = [2; 0x80; 5; 0x00].
Proof.
  cbn zeta.
  assert (H1 : is_u8 5) by (unfold is_u8; lia).
  assert (H2 : is_u8 0) by (unfold is_u8; lia).
  assert (H3 : length (i2cBuffer (queueKeyEvent 2 1 boot)) = 16%nat)
    by (vm_compute; reflexivity).
  assert (H4 : 0 <= i2cWriteIndex (queueKeyEvent 2 1 boot))
    by (vm_compute; discriminate).
  assert (H5 : 2 <= free_bytes (queueKeyEvent 2 1 boot))
    by (vm_compute; discriminate).
  destruct (enqueue_with_room_appends_event (queueKeyEvent 2 1 boot) 5 0
              H3 H4 H5 H1 H2) as (_ & Hq & _).
  split; [vm_compute; reflexivity |].
  rewrite Hq. vm_compute. reflexivity.
Defined.

(** C3 (the code against the claim): the data bytes of a write
    transaction are stored in the event queue itself.  After power-on, the
    write of register 0x84 followed by the data byte 0xAA makes the next
    event-buffer read return 0xAA, though no key event was queued. *)
Theorem write_data_reaches_event_queue :
  queued boot = [] /\
  queued (bus_write [0x84; 0xAA] boot) = [0xAA] /\
  fst (onI2CRequest (bus_write [0x84; 0xAA] boot)) = [0xAA].
Proof. vm_compute. auto. Qed.

(** ** Pins, power and the interrupt handlers *)

Lemma for_upto_rows body s :
  for_upto ROW_COUNT body s = body 3 (body 2 (body 1 (body 0 s))).
Proof. reflexivity. Qed.

Lemma for_upto_cols body s :
  for_upto COL_COUNT body s = body 2 (body 1 (body 0 s)).
Proof. reflexivity. Qed.

Lemma set_pins_flag m s : systemWakeUp (set_pins m s) = systemWakeUp s.
Proof. reflexivity. Qed.

Lemma set_pins_power m s : power (set_pins m s) = power s.
Proof. reflexivity. Qed.

Lemma rows_loop v s :
  for_upto ROW_COUNT (fun i => digitalWrite (at_index ROWS i) v) s
  = set_pins (<[10 := v]> (<[5 := v]> (<[4 := v]> (<[2 := v]> (pins s))))) s.
Proof. reflexivity. Qed.

Lemma rows_loop_state s :
  for_upto ROW_COUNT (fun i => digitalWrite (at_index ROWS i) HIGH) s
  = set_pins (rows_idle (pins s)) s.
Proof. reflexivity. Qed.

Lemma rows_loop_pins s :
  pins (for_upto ROW_COUNT (fun i => digitalWrite (at_index ROWS i) HIGH) s)
  = rows_idle (pins s).
Proof. reflexivity. Qed.

Lemma rows_idle_high m : Forall (fun pin => rows_idle m !! pin = Some HIGH) ROWS.
Proof.
  unfold rows_idle, ROWS.
  repeat constructor;
    repeat (rewrite lookup_insert; case_decide; [reflexivity | try lia]).
Qed.

Lemma rows_idle_other m pin : pin ∉ ROWS -> rows_idle m !! pin = m !! pin.
Proof.
  unfold rows_idle, ROWS. intros H.
  rewrite !lookup_insert_ne by (intros <-; apply H; set_solver).
  reflexivity.
Qed.

Lemma receive_data_hw rx : forall n s,
  pins (receive_data n rx s) = pins s /\
  power (receive_data n rx s) = power s /\
  systemWakeUp (receive_data n rx s) = systemWakeUp s.
Proof.
  induction rx as [| d rx IH]; intros n s; cbn [receive_data]; [auto |].
  destruct (0 <? n); [| auto].
  destruct (IH (n - 1)
    (if i2cWriteIndex s <? I2C_BUFFER_SIZE
     then set_i2cWriteIndex (u8 (i2cWriteIndex s + 1))
            (set_i2cBuffer (store (i2cBuffer s) (i2cWriteIndex s) (u8 d)) s)
     else s)) as (H1 & H2 & H3).
  rewrite H1, H2, H3. destruct (_ <? _); auto.
Qed.

Lemma ISR_hw irq s :
  pins (ISR irq s) = pins s /\ power (ISR irq s) = power s.
Proof.
  destruct irq as [| | rx |]; cbn [ISR]; auto.
  - unfold bus_write, onI2CReceive. destruct (0 <? _); [| auto].
    destruct (Wire_read rx) as [b rx'].
    destruct (receive_data_hw rx' (Z.of_nat (length rx) - 1)
                (set_currentRegister (u8 b) s)) as (H1 & H2 & _).
    rewrite H1, H2. auto.
  - unfold onI2CRequest.
    destruct (_ =? REG_ID_PROBE); [auto |].
    destruct (_ =? REG_KEY_EVENT); auto.
Qed.

Lemma enterSleep_power irq s :
  power (enterSleep irq s) = mkPower true false false false true false.
Proof.
  unfold enterSleep. rewrite !rows_loop. unfold sleep_cpu.
  cbn [power set_pins power_enable set_power set_sleepEnabled].
  rewrite (proj2 (ISR_hw _ _)). reflexivity.
Qed.

Lemma enterSleep_pins irq s :
  exists m, pins (enterSleep irq s) = rows_idle m.
Proof.
  unfold enterSleep. rewrite (rows_loop HIGH). cbn [pins set_pins].
  eexists. reflexivity.
Qed.

(** ** Sleep and wake *)

(** C5, as stated, fails: timer 1 is powered down on the way into sleep
    and is still powered down when the sleep routine returns. *)
Lemma timer1_stays_off_after_wake :
  TIMER1 ∈ sleep_disabled /\
  powered TIMER1 (power boot) = true /\
  powered TIMER1 (power (enterSleep INT0_vect boot)) = false.
Proof.
  split; [unfold sleep_disabled; set_solver |].
  split; vm_compute; reflexivity.
Qed.

Lemma scan_col_frame keys row col s :
  systemWakeUp (scan_col keys row col s) = systemWakeUp s /\
  power (scan_col keys row col s) = power s /\
  pins (scan_col keys row col s) = pins s.
Proof.
  unfold scan_col. cbv zeta.
  destruct (negb _); [| auto].
  match goal with |- context [queueKeyEvent ?k ?p ?x] =>
    destruct (queueKeyEvent_others k p x) as (H1 & _ & _ & _ & _ & H6 & H7)
  end.
  rewrite H1, H6, H7. auto.
Qed.

Lemma scan_row_frame keys row s :
  systemWakeUp (scan_row keys row s) = systemWakeUp s /\
  power (scan_row keys row s) = power s.
Proof.
  unfold scan_row. cbv zeta. rewrite for_upto_cols.
  destruct (scan_col_frame keys row 2
    (scan_col keys row 1 (scan_col keys row 0
       (digitalWrite (at_index ROWS row) LOW
          (for_upto ROW_COUNT (fun i => digitalWrite (at_index ROWS i) HIGH) s)))))
    as (-> & -> & _).
  destruct (scan_col_frame keys row 1
    (scan_col keys row 0
       (digitalWrite (at_index ROWS row) LOW
          (for_upto ROW_COUNT (fun i => digitalWrite (at_index ROWS i) HIGH) s))))
    as (-> & -> & _).
  destruct (scan_col_frame keys row 0
    (digitalWrite (at_index ROWS row) LOW
       (for_upto ROW_COUNT (fun i => digitalWrite (at_index ROWS i) HIGH) s)))
    as (-> & -> & _).
  rewrite rows_loop. auto.
Qed.

Lemma scanKeypad_hw_flag keys s :
  systemWakeUp (scanKeypad keys s) = systemWakeUp s /\
  power (scanKeypad keys s) = power s /\
  pins (scanKeypad keys s)
  = rows_idle (pins (for_upto ROW_COUNT (scan_row keys) s)).
Proof.
  unfold scanKeypad. cbv zeta.
  split; [| split; [| apply rows_loop_pins]].
  - rewrite rows_loop, for_upto_rows, set_pins_flag.
    rewrite !(proj1 (scan_row_frame _ _ _)). reflexivity.
  - rewrite rows_loop, for_upto_rows, set_pins_power.
    rewrite !(proj2 (scan_row_frame _ _ _)). reflexivity.
Qed.

(** ** The control loop, unfolded *)

Lemma set_lastScanTime_flag t s :
  systemWakeUp (set_lastScanTime t s) = systemWakeUp s.
Proof. reflexivity. Qed.

Lemma set_lastScanTime_power t s : power (set_lastScanTime t s) = power s.
Proof. reflexivity. Qed.

Lemma set_lastScanTime_pins t s : pins (set_lastScanTime t s) = pins s.
Proof. reflexivity. Qed.

Lemma set_systemWakeUp_power b s : power (set_systemWakeUp b s) = power s.
Proof. reflexivity. Qed.

Lemma set_systemWakeUp_pins b s : pins (set_systemWakeUp b s) = pins s.
Proof. reflexivity. Qed.

Lemma loop_state inp s :
  snd (loop inp s) =
  let s2 := set_systemWakeUp false
              (if negb (systemWakeUp s) then enterSleep (wake inp) s else s) in
  if SCAN_INTERVAL_MS <=? u32 (u32 (now_scan inp) - lastScanTime s2)
  then set_lastScanTime (u32 (now_scan inp)) (scanKeypad (keys_closed inp) s2)
  else s2.
Proof.
  unfold loop. destruct (negb (systemWakeUp s)); cbv zeta;
    match goal with |- context [SCAN_INTERVAL_MS <=? ?x] =>
      destruct (SCAN_INTERVAL_MS <=? x)
    end;
    match goal with |- context [DEBOUNCE_MS <? ?x] =>
      destruct (DEBOUNCE_MS <? x)
    end; reflexivity.
Qed.

Lemma loop_actions inp s :
  fst (loop inp s) =
  let s2 := set_systemWakeUp false
              (if negb (systemWakeUp s) then enterSleep (wake inp) s else s) in
  (if negb (systemWakeUp s) then [ActSleep] else []) ++
  (if SCAN_INTERVAL_MS <=? u32 (u32 (now_scan inp) - lastScanTime s2)
   then [ActScan] else []).
Proof.
  unfold loop. destruct (negb (systemWakeUp s)); cbv zeta;
    match goal with |- context [SCAN_INTERVAL_MS <=? ?x] =>
      destruct (SCAN_INTERVAL_MS <=? x)
    end; reflexivity.
Qed.

Lemma loop_sleeps_without_flag inp s :
  systemWakeUp s = false -> head (fst (loop inp s)) = Some ActSleep.
Proof.
  intros H. rewrite loop_actions, H. cbv zeta. cbn [negb].
  destruct (_ <=? _); reflexivity.
Qed.

(** C5, amended: when the control loop finds no pending wake flag it
    sleeps, and when the sleep routine returns, timer 0 and the USART are
    powered again while timer 1, timer 2, SPI and the ADC stay powered
    down; every matrix row is back at the idle (high) level; and that pass
    of the loop ends with the wake flag cleared, the rows high and the
    power state the sleep routine left. *)
Theorem wake_restores_rows_and_needed_subsystems inp s :
  systemWakeUp s = false ->
  let woken := enterSleep (wake inp) s in
  let s' := snd (loop inp s) in
  head (fst (loop inp s)) = Some ActSleep /\
  (forall p, powered p (power woken) = bool_decide (p = TIMER0 \/ p = USART0)) /\
  Forall (fun pin => pins woken !! pin = Some HIGH) ROWS /\
  systemWakeUp s' = false /\
  power s' = power woken /\
  Forall (fun pin => pins s' !! pin = Some HIGH) ROWS.
Proof.
  intros Hflag. cbv zeta.
  split; [apply loop_sleeps_without_flag; exact Hflag |].
  split; [intros p; rewrite enterSleep_power; destruct p; reflexivity |].
  destruct (enterSleep_pins (wake inp) s) as [m Hm].
  split; [rewrite Hm; apply rows_idle_high |].
  rewrite loop_state, Hflag. cbn [negb]. cbv zeta.
  destruct (_ <=? _).
  - destruct (scanKeypad_hw_flag (keys_closed inp)
                (set_systemWakeUp false (enterSleep (wake inp) s)))
      as (H1 & H2 & H3).
    rewrite set_lastScanTime_flag, set_lastScanTime_power, set_lastScanTime_pins.
    rewrite H1, H2, H3, set_systemWakeUp_power.
    split; [reflexivity |]. split; [reflexivity |]. apply rows_idle_high.
  - rewrite set_systemWakeUp_power, set_systemWakeUp_pins, Hm.
    split; [reflexivity |]. split; [reflexivity |]. apply rows_idle_high.
Qed.

(** ** The matrix scan *)

Lemma select_row_selected row m :
  0 <= row < ROW_COUNT -> row_selected row (select_row row m).
Proof.
  unfold ROW_COUNT. intros Hrow.
  assert (Hc : row = 0 \/ row = 1 \/ row = 2 \/ row = 3) by lia.
  unfold row_selected, select_row, rows_idle, ROW_COUNT.
  change (seqZ 0 4) with [0; 1; 2; 3].
  destruct Hc as [-> | [-> | [-> | ->]]];
    repeat constructor; cbn [at_index ROWS Z.to_nat Pos.to_nat];
    vm_compute (at_index ROWS _);
    repeat (rewrite lookup_insert; case_decide; try lia); reflexivity.
Qed.

Lemma digitalRead_selected keys row col s :
  0 <= row < ROW_COUNT -> 0 <= col < COL_COUNT ->
  row_selected row (pins s) ->
  digitalRead keys (at_index COLS col) s = if keys row col then LOW else HIGH.
Proof.
  unfold ROW_COUNT, COL_COUNT. intros Hrow Hcol Hsel.
  unfold row_selected, ROW_COUNT in Hsel.
  change (seqZ 0 4) with [0; 1; 2; 3] in Hsel.
  apply Forall_cons in Hsel as [H0 Hsel]. apply Forall_cons in Hsel as [H1 Hsel].
  apply Forall_cons in Hsel as [H2 Hsel]. apply Forall_cons in Hsel as [H3 _].
  unfold digitalRead, ROW_COUNT, COL_COUNT.
  change (seqZ 0 4) with [0; 1; 2; 3]. change (seqZ 0 3) with [0; 1; 2].
  cbn [existsb]. unfold row_low. rewrite H0, H1, H2, H3.
  assert (Hr : row = 0 \/ row = 1 \/ row = 2 \/ row = 3) by lia.
  assert (Hc : col = 0 \/ col = 1 \/ col = 2) by lia.
  destruct Hr as [-> | [-> | [-> | ->]]];
    destruct Hc as [-> | [-> | ->]];
    vm_compute (at_index COLS _);
    cbn [Z.eqb Pos.eqb andb orb];
    repeat (case_decide; try lia; try congruence);
    repeat (rewrite bool_decide_eq_true_2 by reflexivity);
    repeat (rewrite bool_decide_eq_false_2 by discriminate);
    rewrite ?andb_true_r, ?andb_false_r, ?orb_false_r, ?orb_false_l;
    reflexivity.
Qed.

(** *** Setters commute *)

Lemma set_pins_set_pins a b s : set_pins a (set_pins b s) = set_pins a s.
Proof. reflexivity. Qed.

Lemma pins_set_pins m s : pins (set_pins m s) = m.
Proof. reflexivity. Qed.

Lemma set_current_set_current c c' s :
  set_currentKeyState c' (set_currentKeyState c s) = set_currentKeyState c' s.
Proof. reflexivity. Qed.

Lemma set_last_set_current l c s :
  set_lastKeyState l (set_currentKeyState c s)
  = set_currentKeyState c (set_lastKeyState l s).
Proof. reflexivity. Qed.

Lemma set_last_set_last l l' s :
  set_lastKeyState l' (set_lastKeyState l s) = set_lastKeyState l' s.
Proof. reflexivity. Qed.

Lemma queueKeyEvent_set_last k p l s :
  queueKeyEvent k p (set_lastKeyState l s)
  = set_lastKeyState l (queueKeyEvent k p s).
Proof. unfold queueKeyEvent. cbn. destruct (_ <=? _); reflexivity. Qed.

Lemma queueKeyEvent_set_current k p c s :
  queueKeyEvent k p (set_currentKeyState c s)
  = set_currentKeyState c (queueKeyEvent k p s).
Proof. unfold queueKeyEvent. cbn. destruct (_ <=? _); reflexivity. Qed.

Lemma queueKeyEvent_set_pins k p m s :
  queueKeyEvent k p (set_pins m s) = set_pins m (queueKeyEvent k p s).
Proof. unfold queueKeyEvent. cbn. destruct (_ <=? _); reflexivity. Qed.

Lemma queueKeyEvent_buffer_length k p s :
  length (i2cBuffer (queueKeyEvent k p s)) = length (i2cBuffer s).
Proof.
  unfold queueKeyEvent. destruct (_ <=? _); [| reflexivity].
  cbn. rewrite !length_store. reflexivity.
Qed.

(** *** One key *)

Lemma key_step_set_pins keys k m s :
  key_step keys k (set_pins m s) = set_pins m (key_step keys k s).
Proof.
  unfold key_step. cbv zeta.
  change (lastKeyState (set_pins m s)) with (lastKeyState s).
  change (currentKeyState (set_pins m s)) with (currentKeyState s).
  destruct (negb _); [| reflexivity].
  rewrite <- queueKeyEvent_set_pins. reflexivity.
Qed.

Lemma key_step_arrays_ok keys k s : arrays_ok s -> arrays_ok (key_step keys k s).
Proof.
  unfold arrays_ok, key_step. intros (Hb & Hl & Hc). cbv zeta.
  destruct (negb _).
  - rewrite queueKeyEvent_buffer_length.
    match goal with |- context [queueKeyEvent ?a ?b ?x] =>
      destruct (queueKeyEvent_others a b x) as (_ & _ & -> & -> & _)
    end.
    cbn. rewrite !length_store. auto.
  - cbn. rewrite length_store. auto.
Qed.

Lemma sensed_at keys row col :
  0 <= row -> 0 <= col < COL_COUNT ->
  sensed keys (row * COL_COUNT + col) = if keys row col then 1 else 0.
Proof.
  unfold sensed, COL_COUNT. intros Hrow Hcol.
  replace ((row * 3 + col) / 3) with row
    by (rewrite Z.div_add_l by lia; rewrite Z.div_small by lia; lia).
  replace ((row * 3 + col) mod 3) with col
    by (rewrite Z.add_comm, Z.mod_add by lia; rewrite Z.mod_small by lia; lia).
  reflexivity.
Qed.

Lemma scan_col_key_step keys row col s :
  0 <= row < ROW_COUNT -> 0 <= col < COL_COUNT ->
  length (currentKeyState s) = 12%nat ->
  row_selected row (pins s) ->
  scan_col keys row col s = key_step keys (row * COL_COUNT + col) s.
Proof.
  intros Hrow Hcol Hlen Hsel. unfold scan_col, key_step. cbv zeta.
  rewrite (digitalRead_selected keys row col s Hrow Hcol Hsel).
  rewrite (sensed_at keys row col) by (unfold ROW_COUNT in Hrow; lia).
  unfold ROW_COUNT, COL_COUNT in *.
  rewrite (u8_small (row * 3 + col)) by (unfold is_u8; lia).
  assert (Hv : (if decide ((if keys row col then LOW else HIGH) = LOW) then 1 else 0)
               = (if keys row col then 1 else 0))
    by (destruct (keys row col); reflexivity).
  rewrite Hv.
  cbn [currentKeyState lastKeyState set_currentKeyState].
  rewrite at_index_store_eq by lia. reflexivity.
Qed.

Lemma scan_col_on_selected keys row col m s :
  0 <= row < ROW_COUNT -> 0 <= col < COL_COUNT ->
  arrays_ok s -> row_selected row m ->
  scan_col keys row col (set_pins m s)
  = set_pins m (key_step keys (row * COL_COUNT + col) s).
Proof.
  intros Hrow Hcol (_ & _ & Hc) Hsel.
  rewrite scan_col_key_step by assumption.
  apply key_step_set_pins.
Qed.

(** *** One row *)

Lemma select_write row s :
  digitalWrite (at_index ROWS row) LOW
    (for_upto ROW_COUNT (fun i => digitalWrite (at_index ROWS i) HIGH) s)
  = set_pins (select_row row (pins s)) s.
Proof. reflexivity. Qed.

Lemma row_steps_arrays_ok keys row s : arrays_ok s -> arrays_ok (row_steps keys row s).
Proof. intros H. unfold row_steps. do 3 apply key_step_arrays_ok. exact H. Qed.

Lemma row_steps_set_pins keys row m s :
  row_steps keys row (set_pins m s) = set_pins m (row_steps keys row s).
Proof. unfold row_steps. rewrite !key_step_set_pins. reflexivity. Qed.

Lemma scan_row_steps keys row s :
  0 <= row < ROW_COUNT -> arrays_ok s ->
  scan_row keys row s = set_pins (select_row row (pins s)) (row_steps keys row s).
Proof.
  intros Hrow Hok. unfold scan_row. cbv zeta.
  rewrite for_upto_cols, select_write.
  pose proof (select_row_selected row (pins s) Hrow) as Hsel.
  rewrite (scan_col_on_selected keys row 0) by (unfold COL_COUNT; auto; lia).
  rewrite (scan_col_on_selected keys row 1)
    by (unfold COL_COUNT; auto using key_step_arrays_ok; lia).
  rewrite (scan_col_on_selected keys row 2)
    by (unfold COL_COUNT; auto using key_step_arrays_ok; lia).
  reflexivity.
Qed.

Lemma scan_row_set_pins keys row m s :
  0 <= row < ROW_COUNT -> arrays_ok s ->
  scan_row keys row (set_pins m s)
  = set_pins (select_row row m) (row_steps keys row s).
Proof.
  intros Hrow Hok.
  rewrite scan_row_steps by assumption.
  rewrite pins_set_pins, row_steps_set_pins, set_pins_set_pins. reflexivity.
Qed.

(** *** The whole sweep *)

Lemma rows_idle_absorbs_select row m :
  0 <= row < ROW_COUNT -> rows_idle (select_row row m) = rows_idle m.
Proof.
  unfold ROW_COUNT. intros Hrow.
  assert (Hc : row = 0 \/ row = 1 \/ row = 2 \/ row = 3) by lia.
  apply map_eq. intros pin. unfold select_row, rows_idle.
  assert (Hp : pin = 10 \/ pin = 5 \/ pin = 4 \/ pin = 2 \/
               (pin <> 10 /\ pin <> 5 /\ pin <> 4 /\ pin <> 2)) by lia.
  destruct Hc as [-> | [-> | [-> | ->]]]; vm_compute (at_index ROWS _);
    destruct Hp as [-> | [-> | [-> | [-> | (? & ? & ? & ?)]]]];
    repeat first [rewrite lookup_insert_eq | rewrite lookup_insert_ne by lia];
    reflexivity.
Qed.

Lemma rows_idle_select_select row m :
  0 <= row < ROW_COUNT ->
  forall m', rows_idle m' = rows_idle m ->
  rows_idle (select_row row m') = rows_idle m.
Proof. intros Hrow m' H. rewrite rows_idle_absorbs_select by exact Hrow. exact H. Qed.

Lemma key_steps_unrolled keys s :
  row_steps keys 3 (row_steps keys 2 (row_steps keys 1 (row_steps keys 0 s)))
  = foldl (fun st k => key_step keys k st) s key_indices.
Proof. reflexivity. Qed.

Lemma scanKeypad_key_steps keys s :
  arrays_ok s ->
  scanKeypad keys s
  = set_pins (rows_idle (pins s))
      (foldl (fun st k => key_step keys k st) s key_indices).
Proof.
  intros Hok. unfold scanKeypad. cbv zeta.
  rewrite rows_loop_state, for_upto_rows.
  rewrite (scan_row_steps keys 0) by (unfold ROW_COUNT; auto; lia).
  rewrite (scan_row_set_pins keys 1)
    by (unfold ROW_COUNT; auto using row_steps_arrays_ok; lia).
  rewrite (scan_row_set_pins keys 2)
    by (unfold ROW_COUNT; auto using row_steps_arrays_ok; lia).
  rewrite (scan_row_set_pins keys 3)
    by (unfold ROW_COUNT; auto using row_steps_arrays_ok; lia).
  rewrite pins_set_pins, set_pins_set_pins, key_steps_unrolled.
  f_equal.
  repeat (apply rows_idle_select_select; [unfold ROW_COUNT; lia |]).
  reflexivity.
Qed.

(** *** Key by key: the stored states and the events *)

Lemma at_index_prefix (P l : list Z) (n : nat) :
  length P = n ->
  at_index (P ++ drop n l) (Z.of_nat n) = at_index l (Z.of_nat n).
Proof.
  intros HP. unfold at_index. rewrite Nat2Z.id.
  rewrite lookup_total_app_r by lia.
  rewrite lookup_total_drop. f_equal. lia.
Qed.

Lemma store_prefix (P l : list Z) (n : nat) v :
  length P = n -> (n < length l)%nat ->
  store (P ++ drop n l) (Z.of_nat n) v = (P ++ [v]) ++ drop (S n) l.
Proof.
  intros HP Hn. unfold store. rewrite Nat2Z.id.
  rewrite insert_app_r_alt by lia.
  replace (n - length P)%nat with 0%nat by lia.
  destruct (lookup_lt_is_Some_2 l n Hn) as [y Hy].
  rewrite (drop_S l y n Hy). cbn. rewrite <- app_assoc. reflexivity.
Qed.

Lemma store_same (a : list Z) i v :
  at_index a i = v -> (Z.to_nat i < length a)%nat -> store a i v = a.
Proof.
  unfold at_index, store. intros Hv Hlt.
  apply list_insert_id. rewrite <- Hv.
  apply list_lookup_lookup_total_lt. exact Hlt.
Qed.

Lemma set_current_last_id s :
  set_currentKeyState (currentKeyState s) (set_lastKeyState (lastKeyState s) s) = s.
Proof. destruct s. reflexivity. Qed.

Lemma key_step_on keys k c l q :
  key_step keys k (set_currentKeyState c (set_lastKeyState l q)) =
  if negb (sensed keys k =? at_index l k) then
    set_currentKeyState (store c k (sensed keys k))
      (set_lastKeyState (store l k (sensed keys k))
         (queueKeyEvent k (sensed keys k) q))
  else
    set_currentKeyState (store c k (sensed keys k)) (set_lastKeyState l q).
Proof.
  unfold key_step. cbv zeta.
  cbn [currentKeyState lastKeyState set_currentKeyState set_lastKeyState].
  destruct (negb _); [| reflexivity].
  rewrite set_current_set_current, set_last_set_current, set_last_set_last.
  rewrite queueKeyEvent_set_current, queueKeyEvent_set_last. reflexivity.
Qed.

Lemma transitions_upto_S keys last (n : nat) :
  transitions_upto keys last (Z.of_nat (S n)) =
  transitions_upto keys last (Z.of_nat n) ++
  (if decide (sensed keys (Z.of_nat n) <> at_index last (Z.of_nat n))
   then [(Z.of_nat n, sensed keys (Z.of_nat n))] else []).
Proof.
  unfold transitions_upto. rewrite seqZ_S, filter_app, fmap_app.
  f_equal. rewrite Z.add_0_l, filter_cons, filter_nil.
  destruct (decide _); reflexivity.
Qed.

Lemma enqueue_all_snoc evs k v s :
  enqueue_all (evs ++ [(k, v)]) s = queueKeyEvent k v (enqueue_all evs s).
Proof. unfold enqueue_all. rewrite foldl_snoc. reflexivity. Qed.

Lemma key_steps_prefix keys s :
  arrays_ok s ->
  forall n : nat, (n <= 12)%nat ->
  foldl (fun st k => key_step keys k st) s (seqZ 0 (Z.of_nat n))
  = scanned_upto keys n s.
Proof.
  intros (_ & Hl & Hc). induction n as [| n IH]; intros Hn.
  - unfold scanned_upto, transitions_upto. cbn. rewrite !drop_0.
    unfold enqueue_all. cbn. symmetry. apply set_current_last_id.
  - rewrite seqZ_S, foldl_snoc, Z.add_0_l, IH by lia.
    unfold scanned_upto. rewrite key_step_on.
    assert (HP : length (sensed keys <$> seqZ 0 (Z.of_nat n)) = n)
      by (rewrite length_fmap, length_seqZ; lia).
    rewrite (at_index_prefix _ _ n HP).
    rewrite !(store_prefix _ _ n) by (assumption || lia).
    rewrite transitions_upto_S, seqZ_S, fmap_app, Z.add_0_l.
    cbn [fmap list_fmap].
    destruct (Z.eqb_spec (sensed keys (Z.of_nat n))
                (at_index (lastKeyState s) (Z.of_nat n))) as [Heq | Hne];
      cbn [negb].
    + rewrite decide_False by (intros H; apply H; exact Heq).
      rewrite app_nil_r.
      rewrite <- (store_prefix _ (lastKeyState s) n) by (assumption || lia).
      rewrite store_same; [reflexivity | |].
      * rewrite at_index_prefix by exact HP. symmetry. exact Heq.
      * rewrite Nat2Z.id, length_app, length_drop. lia.
    + rewrite decide_True by exact Hne.
      rewrite enqueue_all_snoc. reflexivity.
Qed.

Lemma scanned_all keys s :
  arrays_ok s ->
  scanned_upto keys 12 s =
  set_currentKeyState (sensed keys <$> key_indices)
    (set_lastKeyState (sensed keys <$> key_indices)
       (enqueue_all (transitions keys (lastKeyState s)) s)).
Proof.
  intros (_ & Hl & Hc). unfold scanned_upto.
  rewrite !drop_ge by lia. rewrite !app_nil_r. reflexivity.
Qed.

(** The scan does what the specification says, all fields included. *)
Lemma scanKeypad_scan_spec keys s :
  arrays_ok s -> scanKeypad keys s = scan_spec keys s.
Proof.
  intros Hok. rewrite scanKeypad_key_steps by exact Hok.
  unfold scan_spec. f_equal.
  rewrite <- scanned_all by exact Hok.
  apply (key_steps_prefix keys s Hok 12). lia.
Qed.

(** *** The events of a scan *)

Lemma transitions_elem keys last k v :
  (k, v) ∈ transitions keys last <->
  0 <= k < NUM_KEYS /\ v = sensed keys k /\ sensed keys k <> at_index last k.
Proof.
  unfold transitions, key_indices. rewrite list_elem_of_fmap. split.
  - intros (k' & Heq & Hin). inversion Heq; subst k' v.
    apply list_elem_of_filter in Hin as [Hne Hin].
    apply elem_of_seqZ in Hin. repeat split; (exact Hne || lia).
  - intros (Hk & -> & Hne). exists k. split; [reflexivity |].
    apply list_elem_of_filter. split; [exact Hne |].
    apply elem_of_seqZ. lia.
Qed.

Lemma filter_keeps_order (P : Z -> Prop) `{!forall x, Decision (P x)} (l : list Z) :
  StronglySorted Z.lt l -> StronglySorted Z.lt (filter P l).
Proof.
  induction 1 as [| x l Hs IH Hall]; [constructor |].
  rewrite filter_cons. destruct (decide (P x)); [| exact IH].
  constructor; [exact IH |].
  apply Forall_forall. intros y Hy.
  apply list_elem_of_filter in Hy as [_ Hy].
  rewrite Forall_forall in Hall. apply Hall, Hy.
Qed.

Lemma key_indices_ascending : StronglySorted Z.lt key_indices.
Proof.
  change key_indices with [0; 1; 2; 3; 4; 5; 6; 7; 8; 9; 10; 11].
  repeat (constructor; [| repeat (constructor; [lia |]); constructor]).
  constructor.
Qed.

Lemma transitions_keys keys last :
  (transitions keys last).*1
  = filter (fun k => sensed keys k <> at_index last k) key_indices.
Proof.
  unfold transitions. rewrite <- list_fmap_compose.
  apply list_fmap_id.
Qed.

Lemma transitions_ascending keys last :
  StronglySorted Z.lt (transitions keys last).*1.
Proof.
  rewrite transitions_keys. apply filter_keeps_order, key_indices_ascending.
Qed.

Lemma sensed_bit keys k : sensed keys k = 0 \/ sensed keys k = 1.
Proof. unfold sensed. destruct (keys _ _); auto. Qed.

Lemma transitions_u8 keys last : Forall is_u8_event (transitions keys last).
Proof.
  apply Forall_forall. intros [k v] Hin.
  apply transitions_elem in Hin as (Hk & -> & _).
  unfold is_u8_event, is_u8, NUM_KEYS in *. cbn [fst snd].
  change (u8 (ROW_COUNT * COL_COUNT)) with 12 in Hk.
  destruct (sensed_bit keys k) as [-> | ->]; lia.
Qed.

Lemma filter_none (P : Z -> Prop) `{!forall x, Decision (P x)} (l : list Z) :
  Forall (fun x => ~ P x) l -> filter P l = [].
Proof.
  induction 1 as [| x l Hx _ IH]; [reflexivity |].
  rewrite filter_cons_False by exact Hx. exact IH.
Qed.

Lemma at_index_sensed keys k :
  0 <= k < NUM_KEYS -> at_index (sensed keys <$> key_indices) k = sensed keys k.
Proof.
  intros Hk. unfold at_index, key_indices.
  rewrite (list_lookup_total_fmap (sensed keys) (seqZ 0 NUM_KEYS) (Z.to_nat k))
    by (rewrite length_seqZ; lia).
  rewrite lookup_total_seqZ_lt by lia. f_equal. lia.
Qed.

(** Once the stored states are the sensed ones, nothing is a transition. *)
Lemma transitions_settled keys :
  transitions keys (sensed keys <$> key_indices) = [].
Proof.
  unfold transitions. rewrite filter_none; [reflexivity |].
  apply Forall_forall. intros k Hin Hne. apply Hne.
  apply elem_of_seqZ in Hin. symmetry. apply at_index_sensed. lia.
Qed.

Lemma enqueue_all_buffer_length evs : forall s,
  length (i2cBuffer (enqueue_all evs s)) = length (i2cBuffer s).
Proof.
  induction evs as [| e evs IH]; intros s; [reflexivity |].
  change (enqueue_all (e :: evs) s)
    with (enqueue_all evs (queueKeyEvent (fst e) (snd e) s)).
  rewrite IH. apply queueKeyEvent_buffer_length.
Qed.

Lemma scan_spec_arrays_ok keys s : arrays_ok s -> arrays_ok (scan_spec keys s).
Proof.
  unfold arrays_ok, scan_spec. intros (Hb & _ & _).
  cbn [i2cBuffer lastKeyState currentKeyState set_pins set_currentKeyState
       set_lastKeyState].
  rewrite enqueue_all_buffer_length, length_fmap.
  unfold key_indices. rewrite length_seqZ. auto.
Qed.

Lemma scan_spec_queued keys s :
  queued (scan_spec keys s)
  = queued (enqueue_all (transitions keys (lastKeyState s)) s).
Proof. reflexivity. Qed.

Lemma scan_spec_last keys s :
  lastKeyState (scan_spec keys s) = sensed keys <$> key_indices.
Proof. reflexivity. Qed.

Lemma scan_all_spec snaps : forall s,
  arrays_ok s ->
  scan_all snaps s = foldl (fun st keys => scan_spec keys st) s snaps /\
  arrays_ok (scan_all snaps s).
Proof.
  induction snaps as [| keys snaps IH]; intros s Hok; [split; [reflexivity | exact Hok] |].
  change (scan_all (keys :: snaps) s) with (scan_all snaps (scanKeypad keys s)).
  cbn [foldl]. rewrite <- (scanKeypad_scan_spec keys s Hok).
  apply IH. rewrite scanKeypad_scan_spec by exact Hok.
  apply scan_spec_arrays_ok, Hok.
Qed.

(** C2: one call of the scan emits, by a call of the enqueue operation
    each, exactly one event per key whose sensed state differs from the
    stored one, in ascending key index (row-major, then column-major),
    stores the sensed state of every key, and emits nothing for a key
    whose state is unchanged: the scan repeated on the same switches emits
    no event.  The same holds scan after scan for any series of switch
    snapshots. *)
Theorem scan_emits_one_event_per_changed_key keys s :
  arrays_ok s ->
  let evs := transitions keys (lastKeyState s) in
  let s' := scanKeypad keys s in
  s' = scan_spec keys s /\
  (forall k v, (k, v) ∈ evs <->
     0 <= k < NUM_KEYS /\ v = sensed keys k /\
     sensed keys k <> at_index (lastKeyState s) k) /\
  StronglySorted Z.lt evs.*1 /\
  lastKeyState s' = sensed keys <$> key_indices /\
  (index_ok s -> 2 * Z.of_nat (length evs) <= free_bytes s ->
   queued s' = queued s ++ encode_all evs) /\
  transitions keys (lastKeyState s') = [] /\
  queued (scanKeypad keys s') = queued s' /\
  forall snaps,
    scan_all snaps s = foldl (fun st snap => scan_spec snap st) s snaps.
Proof.
  intros Hok. cbv zeta.
  assert (Hspec := scanKeypad_scan_spec keys s Hok).
  assert (Hok' : arrays_ok (scan_spec keys s)) by (apply scan_spec_arrays_ok, Hok).
  rewrite Hspec.
  split; [reflexivity |].
  split; [intros k v; apply transitions_elem |].
  split; [apply transitions_ascending |].
  split; [apply scan_spec_last |].
  split; [| split; [| split]].
  - intros Hidx Hroom. rewrite scan_spec_queued.
    destruct (enqueue_all_queued (transitions keys (lastKeyState s)) s
                (proj1 Hok) Hidx (transitions_u8 keys _)) as (Hq & _ & _).
    rewrite Hq. unfold admitted. rewrite take_ge; [reflexivity |].
    assert (Z.of_nat (length (transitions keys (lastKeyState s)))
            <= free_bytes s / 2)
      by (apply Z.div_le_lower_bound; lia).
    lia.
  - rewrite scan_spec_last. apply transitions_settled.
  - rewrite (scanKeypad_scan_spec keys _ Hok'), scan_spec_queued.
    rewrite scan_spec_last, transitions_settled. reflexivity.
  - intros snaps. apply scan_all_spec, Hok.
Qed.

Lemma scan_emits_one_event_per_changed_key_witness :
  arrays_ok boot /\
  queued (scanKeypad key5_down boot) = [5; 0x80] /\
  transitions key5_down (lastKeyState (scanKeypad key5_down boot)) = [].
Proof.
  assert (Hok : arrays_ok boot) by (vm_compute; auto).
  destruct (scan_emits_one_event_per_changed_key key5_down boot Hok)
    as (Hs & _ & _ & _ & _ & Hheld & _).
  split; [exact Hok |]. split; [| exact Hheld].
  rewrite Hs. vm_compute. reflexivity.
Defined.

(** ** The hold window after a wake-up *)

Lemma loop_clears_flag inp s : systemWakeUp (snd (loop inp s)) = false.
Proof.
  rewrite loop_state. cbv zeta. destruct (_ <=? _).
  - rewrite set_lastScanTime_flag.
    rewrite (proj1 (scanKeypad_hw_flag _ _)). reflexivity.
  - reflexivity.
Qed.

Lemma wake_restores_rows_and_needed_subsystems_witness :
  let inp := mkLoopInput INT0_vect 100 100 key5_down in
  systemWakeUp boot = false /\
  head (fst (loop inp boot)) = Some ActSleep /\
  powered TIMER0 (power (enterSleep INT0_vect boot)) = true /\
  powered SPI (power (enterSleep INT0_vect boot)) = false /\
  systemWakeUp (snd (loop inp boot)) = false.
Proof.
  cbn zeta.
  assert (H : systemWakeUp boot = false) by reflexivity.
  destruct (wake_restores_rows_and_needed_subsystems
              (mkLoopInput INT0_vect 100 100 key5_down) boot H)
    as (H1 & H2 & _ & H4 & _).
  split; [exact H |]. split; [exact H1 |].
  split; [exact (H2 TIMER0) |]. split; [exact (H2 SPI) | exact H4].
Defined.

(** The scan after a wake-up is run by the cadence test alone: a pass
    woken less than [SCAN_INTERVAL_MS] after the last scan does not scan. *)
Lemma wake_within_scan_interval_skips_scan :
  fst (loop (mkLoopInput INT0_vect 5 5 key5_down) boot) = [ActSleep].
Proof. vm_compute. reflexivity. Qed.

(** C4 (the code against the claim): no hold window keeps the loop awake.
    A pass that finds no wake flag sleeps, is woken at 100 ms by a wake
    line and scans once; the pass that follows sleeps again at once, and
    so does every pass that follows any pass, whatever the clock reads:
    the final test of [loop] on [DEBOUNCE_MS] has an empty body, and the
    decision to sleep reads the wake flag only. *)
Theorem sleep_reentered_without_hold_window :
  let pass1 := loop (mkLoopInput INT0_vect 100 100 key5_down) boot in
  let pass2 := loop (mkLoopInput INT1_vect 101 101 key5_down) (snd pass1) in
  systemWakeUp boot = false /\
  fst pass1 = [ActSleep; ActScan] /\
  lastScanTime (snd pass1) = 100 /\
  fst pass2 = [ActSleep] /\
  forall inp1 inp2 s,
    head (fst (loop inp2 (snd (loop inp1 s)))) = Some ActSleep.
Proof.
  cbv zeta.
  split; [vm_compute; reflexivity |].
  split; [vm_compute; reflexivity |].
  split; [vm_compute; reflexivity |].
  split; [vm_compute; reflexivity |].
  intros inp1 inp2 s. apply loop_sleeps_without_flag, loop_clears_flag.
Qed.

(** ** The queue invariant along runs *)

Lemma index_ok_same s s' :
  i2cWriteIndex s' = i2cWriteIndex s -> index_ok s -> index_ok s'.
Proof. unfold index_ok. intros ->. auto. Qed.

Lemma index_set_pins m s : i2cWriteIndex (set_pins m s) = i2cWriteIndex s.
Proof. reflexivity. Qed.

Lemma index_set_systemWakeUp b s :
  i2cWriteIndex (set_systemWakeUp b s) = i2cWriteIndex s.
Proof. reflexivity. Qed.

Lemma index_set_lastScanTime t s :
  i2cWriteIndex (set_lastScanTime t s) = i2cWriteIndex s.
Proof. reflexivity. Qed.

Lemma scan_col_index_ok keys row col s :
  index_ok s -> index_ok (scan_col keys row col s).
Proof.
  intros H. unfold scan_col. cbv zeta.
  destruct (negb _).
  - apply queueKeyEvent_index_ok. exact H.
  - exact H.
Qed.

Lemma scan_row_index_ok keys row s : index_ok s -> index_ok (scan_row keys row s).
Proof.
  intros H. unfold scan_row. cbv zeta. rewrite for_upto_cols, select_write.
  do 3 apply scan_col_index_ok. exact H.
Qed.

Lemma scanKeypad_index_ok keys s : index_ok s -> index_ok (scanKeypad keys s).
Proof.
  intros H. unfold scanKeypad. cbv zeta. rewrite rows_loop_state, for_upto_rows.
  apply (index_ok_same
           (scan_row keys 3 (scan_row keys 2 (scan_row keys 1 (scan_row keys 0 s)))));
    [apply index_set_pins |].
  do 4 apply scan_row_index_ok. exact H.
Qed.

Lemma ISR_index_ok irq s : index_ok s -> index_ok (ISR irq s).
Proof.
  intros H. destruct irq as [| | rx |]; cbn [ISR]; try exact H.
  - apply onI2CReceive_index_ok. exact H.
  - apply onI2CRequest_index_ok. exact H.
Qed.

Lemma enterSleep_index_ok irq s : index_ok s -> index_ok (enterSleep irq s).
Proof.
  intros H. unfold enterSleep, sleep_cpu. rewrite !rows_loop.
  match goal with |- context [ISR irq ?x] =>
    apply (index_ok_same (ISR irq x)); [reflexivity |]
  end.
  apply ISR_index_ok. exact H.
Qed.

Lemma loop_index_ok inp s : index_ok s -> index_ok (snd (loop inp s)).
Proof.
  intros H. rewrite loop_state. cbv zeta.
  assert (H2 : index_ok (set_systemWakeUp false
                 (if negb (systemWakeUp s) then enterSleep (wake inp) s else s))).
  { destruct (negb (systemWakeUp s)).
    - apply (index_ok_same (enterSleep (wake inp) s));
        [apply index_set_systemWakeUp |].
      apply enterSleep_index_ok. exact H.
    - exact H. }
  destruct (_ <=? _); [| exact H2].
  match goal with |- index_ok (set_lastScanTime ?t ?x) =>
    apply (index_ok_same x); [apply index_set_lastScanTime |]
  end.
  apply scanKeypad_index_ok. exact H2.
Qed.

Lemma run_op_index_ok op s : index_ok s -> index_ok (run_op s op).
Proof.
  intros H. destruct op; cbn [run_op].
  - apply queueKeyEvent_index_ok, H.
  - apply onI2CReceive_index_ok, H.
  - apply onI2CRequest_index_ok, H.
  - apply scanKeypad_index_ok, H.
  - apply ISR_index_ok, H.
  - apply loop_index_ok, H.
Qed.

Lemma run_index_ok ops : forall s, index_ok s -> index_ok (run ops s).
Proof.
  induction ops as [| op ops IH]; intros s H; [exact H |].
  change (run (op :: ops) s) with (run ops (run_op s op)).
  apply IH, run_op_index_ok, H.
Qed.

(** Whatever was written before, selecting register 0x90 makes the next
    read answer 0x00 and change nothing. *)
Lemma id_probe_after_select data s :
  onI2CRequest (bus_write (REG_ID_PROBE :: data) s)
  = ([0x00], bus_write (REG_ID_PROBE :: data) s).
Proof.
  unfold onI2CRequest. rewrite bus_write_selects. reflexivity.
Qed.

(** Taken as units, the operations keep the write index within the
    capacity: if it is at most 16 before an enqueue, a write transaction
    (whatever its length and data) or a read in any register that runs to
    completion, it is at most 16 after it, and so it is after any series
    of operations each run to completion. *)
Lemma index_ok_kept_by_whole_operations s :
  index_ok s ->
  (forall keyIndex pressed, index_ok (queueKeyEvent keyIndex pressed s)) /\
  (forall byteCount rx, index_ok (onI2CReceive byteCount rx s)) /\
  index_ok (snd (onI2CRequest s)) /\
  forall ops, index_ok (run ops s).
Proof.
  intros H. split; [| split; [| split]].
  - intros k p. apply queueKeyEvent_index_ok. exact H.
  - intros n rx. apply onI2CReceive_index_ok. exact H.
  - apply onI2CRequest_index_ok. exact H.
  - intros ops. apply run_index_ok. exact H.
Qed.



(** * Further properties of the firmware *)

(** ** Write transactions *)

Lemma receive_data_queued data : forall n s,
  length (i2cBuffer s) = 16%nat -> index_ok s -> Forall is_u8 data ->
  queued (receive_data n data s)
  = queued s ++ take (Z.to_nat (Z.min n (free_bytes s))) data /\
  length (i2cBuffer (receive_data n data s)) = 16%nat.
Proof.
  induction data as [| d data IH]; intros n s Hlen Hidx Hd; cbn [receive_data].
  - rewrite take_nil, app_nil_r. auto.
  - apply Forall_cons in Hd as [Hd Hdata].
    unfold index_ok, I2C_BUFFER_SIZE in Hidx.
    destruct (Z.ltb_spec 0 n) as [Hn | Hn].
    + unfold I2C_BUFFER_SIZE at 1 2.
      destruct (Z.ltb_spec (i2cWriteIndex s) 16) as [Hroom | Hfull].
      * match goal with |- context [receive_data _ data ?x] => set (s1 := x) end.
        assert (Hq1 : queued s1 = queued s ++ [d]).
        { unfold s1, queued. cbn [i2cWriteIndex i2cBuffer set_i2cWriteIndex set_i2cBuffer].
          rewrite (u8_small (i2cWriteIndex s + 1)) by (unfold is_u8; lia).
          rewrite (u8_small d) by exact Hd.
          apply take_store_snoc; lia. }
        assert (Hi1 : i2cWriteIndex s1 = i2cWriteIndex s + 1).
        { unfold s1. cbn [i2cWriteIndex set_i2cWriteIndex].
          apply u8_small. unfold is_u8. lia. }
        assert (Hl1 : length (i2cBuffer s1) = 16%nat).
        { unfold s1. cbn [i2cBuffer set_i2cWriteIndex set_i2cBuffer].
          rewrite length_store. exact Hlen. }
        assert (Hok1 : index_ok s1)
          by (unfold index_ok, I2C_BUFFER_SIZE; rewrite Hi1; lia).
        destruct (IH (n - 1) s1 Hl1 Hok1 Hdata) as [IHq IHl].
        split; [| exact IHl].
        rewrite IHq, Hq1, <- app_assoc. f_equal.
        unfold free_bytes, I2C_BUFFER_SIZE. rewrite Hi1.
        replace (Z.to_nat (n `min` (16 - i2cWriteIndex s)))
          with (S (Z.to_nat ((n - 1) `min` (16 - (i2cWriteIndex s + 1))))) by lia.
        reflexivity.
      * destruct (IH (n - 1) s Hlen (conj (proj1 Hidx) (proj2 Hidx)) Hdata)
          as [IHq IHl].
        split; [| exact IHl]. rewrite IHq. unfold free_bytes, I2C_BUFFER_SIZE.
        replace (Z.to_nat ((n - 1) `min` (16 - i2cWriteIndex s))) with 0%nat by lia.
        replace (Z.to_nat (n `min` (16 - i2cWriteIndex s))) with 0%nat by lia.
        reflexivity.
    + replace (Z.to_nat (n `min` free_bytes s)) with 0%nat by lia.
      cbn [take]. rewrite app_nil_r. auto.
Qed.

(** X1: a write transaction of [byteCount >= 1] bytes selects the register
    given by its first byte and appends its data bytes to the queue buffer
    in order, as many as [byteCount - 1] and the free room allow; what
    does not fit is discarded, and the queue stays within its capacity. *)
Theorem receive_appends_data_up_to_capacity s byteCount reg data :
  length (i2cBuffer s) = 16%nat -> index_ok s ->
  0 < byteCount -> Forall is_u8 data ->
  let s' := onI2CReceive byteCount (reg :: data) s in
  currentRegister s' = u8 reg /\
  queued s' = queued s ++ take (Z.to_nat (Z.min (byteCount - 1) (free_bytes s))) data /\
  (length (queued s') <= 16)%nat.
Proof.
  intros Hlen Hidx Hn Hd. cbv zeta. unfold onI2CReceive.
  destruct (Z.ltb_spec 0 byteCount) as [_ | ?]; [| lia].
  cbn [Wire_read].
  split; [apply receive_data_register |].
  destruct (receive_data_queued data (byteCount - 1)
              (set_currentRegister (u8 reg) s) Hlen Hidx Hd) as [Hq Hl].
  split; [exact Hq |].
  unfold queued at 1. rewrite length_take. lia.
Qed.

Lemma receive_appends_data_up_to_capacity_witness :
  let s := set_i2cWriteIndex 14 boot in
  queued (onI2CReceive 5 [0x84; 1; 2; 3; 4] s) = queued s ++ [1; 2].
Proof.
  cbn zeta.
  assert (H1 : length (i2cBuffer (set_i2cWriteIndex 14 boot)) = 16%nat)
    by (vm_compute; reflexivity).
  assert (H2 : index_ok (set_i2cWriteIndex 14 boot))
    by (vm_compute; split; discriminate).
  assert (H3 : 0 < 5) by lia.
  assert (H4 : Forall is_u8 [1; 2; 3; 4])
    by (repeat constructor; unfold is_u8; lia).
  destruct (receive_appends_data_up_to_capacity
              (set_i2cWriteIndex 14 boot) 5 0x84 [1; 2; 3; 4] H1 H2 H3 H4)
    as (_ & Hq & _).
  rewrite Hq. vm_compute. reflexivity.
Defined.

(** ** Reads of other registers *)

Lemma select_then_read_other reg s :
  u8 reg <> REG_KEY_EVENT ->
  onI2CRequest (bus_write [reg] s) = ([0x00], set_currentRegister (u8 reg) s).
Proof.
  intros Hne.
  assert (Hw : bus_write [reg] s = set_currentRegister (u8 reg) s) by reflexivity.
  rewrite Hw. unfold onI2CRequest.
  cbn [currentRegister set_currentRegister].
  destruct (u8 reg =? REG_ID_PROBE); [reflexivity |].
  destruct (Z.eqb_spec (u8 reg) REG_KEY_EVENT); [contradiction | reflexivity].
Qed.

Lemma probe_all_queue regs : forall s,
  Forall (fun reg => u8 reg <> REG_KEY_EVENT) regs ->
  i2cBuffer (probe_all regs s) = i2cBuffer s /\
  i2cWriteIndex (probe_all regs s) = i2cWriteIndex s.
Proof.
  induction regs as [| reg regs IH]; intros s Hregs; [auto |].
  apply Forall_cons in Hregs as [Hreg Hregs].
  change (probe_all (reg :: regs) s)
    with (probe_all regs (snd (onI2CRequest (bus_write [reg] s)))).
  rewrite (select_then_read_other reg s Hreg). cbn [snd].
  destruct (IH (set_currentRegister (u8 reg) s) Hregs) as [-> ->]. auto.
Qed.

(** X2: queued events survive unrelated bus traffic.  Whatever registers
    other than the event buffer the master selects and reads, each read
    answers the single byte 0x00 and the queue is untouched, so that the
    next selection and read of the event buffer returns all of it. *)
Theorem events_survive_reads_of_other_registers s regs :
  Forall (fun reg => u8 reg <> REG_KEY_EVENT) regs ->
  Forall (fun reg => forall st, fst (onI2CRequest (bus_write [reg] st)) = [0x00]) regs /\
  queued (probe_all regs s) = queued s /\
  fst (onI2CRequest (bus_write [REG_KEY_EVENT] (probe_all regs s))) = queued s.
Proof.
  intros Hregs.
  destruct (probe_all_queue regs s Hregs) as [Hb Hi].
  assert (Hq : queued (probe_all regs s) = queued s)
    by (unfold queued; rewrite Hb, Hi; reflexivity).
  split; [| split; [exact Hq |]].
  - apply Forall_forall. intros reg Hin st.
    rewrite Forall_forall in Hregs.
    rewrite (select_then_read_other reg st (Hregs reg Hin)). reflexivity.
  - rewrite onI2CRequest_event by apply bus_write_selects.
    cbn [fst]. rewrite <- Hq. reflexivity.
Qed.

Lemma events_survive_reads_of_other_registers_witness :
  let s := queueKeyEvent 7 1 boot in
  fst (onI2CRequest (bus_write [0x84] (probe_all [0x90; 0x01; 0x3F] s))) = [7; 0x80].
Proof.
  cbn zeta.
  assert (H : Forall (fun reg => u8 reg <> REG_KEY_EVENT) [0x90; 0x01; 0x3F])
    by (repeat constructor; vm_compute; discriminate).
  destruct (events_survive_reads_of_other_registers (queueKeyEvent 7 1 boot) _ H)
    as (_ & _ & Hr).
  transitivity (queued (queueKeyEvent 7 1 boot));
    [exact Hr | vm_compute; reflexivity].
Defined.

(** X3: a read never answers more than the 16 bytes of the buffer: the
    event-buffer register answers as many bytes as the write index says,
    every other register exactly one. *)
Theorem read_response_length s :
  length (i2cBuffer s) = 16%nat -> index_ok s ->
  (length (fst (onI2CRequest s)) <= 16)%nat /\
  (currentRegister s = REG_KEY_EVENT ->
   Z.of_nat (length (fst (onI2CRequest s))) = i2cWriteIndex s) /\
  (currentRegister s <> REG_KEY_EVENT ->
   length (fst (onI2CRequest s)) = 1%nat).
Proof.
  unfold index_ok, I2C_BUFFER_SIZE. intros Hlen Hidx. unfold onI2CRequest.
  unfold REG_ID_PROBE, REG_KEY_EVENT.
  destruct (Z.eqb_spec (currentRegister s) 144) as [Hp | Hp].
  - cbn [fst length]. repeat split; intros; lia.
  - destruct (Z.eqb_spec (currentRegister s) 132) as [He | He];
      cbn [fst].
    + rewrite length_take. repeat split; intros; (lia || contradiction).
    + cbn [length]. repeat split; intros; (lia || contradiction).
Qed.

Lemma read_response_length_witness :
  length (fst (onI2CRequest (queueKeyEvent 3 1 (bus_write [0x84] boot)))) = 2%nat.
Proof.
  destruct (read_response_length (queueKeyEvent 3 1 (bus_write [0x84] boot)))
    as (_ & He & _).
  - vm_compute. reflexivity.
  - vm_compute. split; discriminate.
  - assert (Hr : currentRegister (queueKeyEvent 3 1 (bus_write [0x84] boot))
                 = REG_KEY_EVENT) by (vm_compute; reflexivity).
    specialize (He Hr).
    assert (Hi : i2cWriteIndex (queueKeyEvent 3 1 (bus_write [0x84] boot)) = 2)
      by (vm_compute; reflexivity).
    lia.
Defined.

(** ** More on the scan *)

Lemma enqueue_all_others evs : forall s,
  systemWakeUp (enqueue_all evs s) = systemWakeUp s /\
  lastScanTime (enqueue_all evs s) = lastScanTime s /\
  lastKeyState (enqueue_all evs s) = lastKeyState s /\
  currentKeyState (enqueue_all evs s) = currentKeyState s /\
  currentRegister (enqueue_all evs s) = currentRegister s /\
  pins (enqueue_all evs s) = pins s /\
  power (enqueue_all evs s) = power s.
Proof.
  induction evs as [| e evs IH]; intros s; [repeat split |].
  change (enqueue_all (e :: evs) s)
    with (enqueue_all evs (queueKeyEvent (fst e) (snd e) s)).
  destruct (IH (queueKeyEvent (fst e) (snd e) s))
    as (-> & -> & -> & -> & -> & -> & ->).
  apply queueKeyEvent_others.
Qed.

Lemma scan_spec_register keys s :
  currentRegister (scan_spec keys s) = currentRegister s.
Proof.
  unfold scan_spec.
  cbn [currentRegister set_pins set_currentKeyState set_lastKeyState].
  apply enqueue_all_register.
Qed.

(** X4: a scan in a state with little room queues the first events that
    fit, two bytes each, in scan order, and drops the others for good: it
    stores the sensed state of every key all the same, so that once the
    host has drained the queue a scan of the same switches queues
    nothing. *)
Theorem scan_queues_the_events_that_fit keys s :
  arrays_ok s -> index_ok s ->
  let s' := scanKeypad keys s in
  queued s' = queued s ++ encode_all (admitted (transitions keys (lastKeyState s)) s) /\
  (currentRegister s = REG_KEY_EVENT ->
   fst (onI2CRequest s') = queued s' /\
   queued (scanKeypad keys (snd (onI2CRequest s'))) = []).
Proof.
  intros Hok Hidx. cbv zeta.
  rewrite (scanKeypad_scan_spec keys s Hok).
  split.
  - rewrite scan_spec_queued.
    destruct (enqueue_all_queued (transitions keys (lastKeyState s)) s
                (proj1 Hok) Hidx (transitions_u8 keys _)) as (Hq & _ & _).
    exact Hq.
  - intros Hreg.
    assert (Hreg' : currentRegister (scan_spec keys s) = REG_KEY_EVENT)
      by (rewrite scan_spec_register; exact Hreg).
    rewrite (onI2CRequest_event _ Hreg'). cbn [fst snd].
    split; [reflexivity |].
    assert (Hok' : arrays_ok (set_i2cWriteIndex 0 (scan_spec keys s)))
      by (apply (scan_spec_arrays_ok keys s Hok)).
    rewrite (scanKeypad_scan_spec keys _ Hok'), scan_spec_queued.
    assert (Hl : lastKeyState (set_i2cWriteIndex 0 (scan_spec keys s))
                 = sensed keys <$> key_indices) by reflexivity.
    rewrite Hl, transitions_settled. reflexivity.
Qed.

Lemma scan_queues_the_events_that_fit_witness :
  let s := bus_write [0x84] boot in
  let s' := scanKeypad (fun _ _ => true) s in
  queued s' = [0; 0x80; 1; 0x80; 2; 0x80; 3; 0x80; 4; 0x80; 5; 0x80; 6; 0x80; 7; 0x80] /\
  queued (scanKeypad (fun _ _ => true) (snd (onI2CRequest s'))) = [].
Proof.
  cbn zeta.
  assert (Hok : arrays_ok (bus_write [0x84] boot)) by (vm_compute; auto).
  assert (Hidx : index_ok (bus_write [0x84] boot))
    by (vm_compute; split; discriminate).
  destruct (scan_queues_the_events_that_fit (fun _ _ => true)
              (bus_write [0x84] boot) Hok Hidx) as [Hq Hd].
  split.
  - rewrite Hq. vm_compute. reflexivity.
  - apply Hd. vm_compute. reflexivity.
Defined.

(** X5: a scan ends with every row back at the idle (high) level; it
    drives no other pin, leaves the selected register, the wake flag, the
    scan clock and the power state as they were, and ends with the two
    key-state arrays equal. *)
Theorem scan_restores_rows_and_keeps_other_state keys s :
  arrays_ok s ->
  let s' := scanKeypad keys s in
  Forall (fun pin => pins s' !! pin = Some HIGH) ROWS /\
  (forall pin, pin ∉ ROWS -> pins s' !! pin = pins s !! pin) /\
  currentRegister s' = currentRegister s /\
  systemWakeUp s' = systemWakeUp s /\
  lastScanTime s' = lastScanTime s /\
  power s' = power s /\
  currentKeyState s' = lastKeyState s'.
Proof.
  intros Hok. cbv zeta. rewrite (scanKeypad_scan_spec keys s Hok).
  destruct (enqueue_all_others (transitions keys (lastKeyState s)) s)
    as (Hf & Ht & _ & _ & Hr & _ & Hp).
  unfold scan_spec.
  cbn [pins currentRegister systemWakeUp lastScanTime power currentKeyState
       lastKeyState set_pins set_currentKeyState set_lastKeyState].
  split; [apply rows_idle_high |].
  split; [intros pin Hpin; apply rows_idle_other, Hpin |].
  auto.
Qed.

Lemma pin_10_is_a_row : 10 ∈ ROWS.
Proof. unfold ROWS. repeat constructor. Qed.

Lemma pin_13_is_no_row : 13 ∉ ROWS.
Proof.
  unfold ROWS. intros H.
  repeat (apply elem_of_cons in H as [H | H]; [discriminate H |]).
  inversion H.
Qed.

Lemma scan_restores_rows_and_keeps_other_state_witness :
  let s' := scanKeypad key5_down (digitalWrite 13 LOW boot) in
  pins s' !! 10 = Some HIGH /\ pins s' !! 13 = Some LOW.
Proof.
  cbn zeta.
  assert (Hok : arrays_ok (digitalWrite 13 LOW boot)) by (vm_compute; auto).
  destruct (scan_restores_rows_and_keeps_other_state key5_down
              (digitalWrite 13 LOW boot) Hok) as (Hrows & Hother & _).
  split.
  - rewrite Forall_forall in Hrows. apply Hrows, pin_10_is_a_row.
  - rewrite (Hother 13 pin_13_is_no_row). vm_compute. reflexivity.
Defined.

(** X6: the drive sequence of the scan isolates the rows: once every row
    has been written high and the row under scan low, the read of a
    column pin gives the state of the switch of that row and column,
    whatever other switches are closed. *)
Theorem scan_row_reads_only_its_own_switches keys row col s :
  0 <= row < ROW_COUNT -> 0 <= col < COL_COUNT ->
  digitalRead keys (at_index COLS col)
    (digitalWrite (at_index ROWS row) LOW
       (for_upto ROW_COUNT (fun i => digitalWrite (at_index ROWS i) HIGH) s))
  = if keys row col then LOW else HIGH.
Proof.
  intros Hrow Hcol. rewrite select_write.
  apply digitalRead_selected; [exact Hrow | exact Hcol |].
  rewrite pins_set_pins. apply select_row_selected, Hrow.
Qed.

Lemma scan_row_reads_only_its_own_switches_witness :
  digitalRead (fun r c => negb ((r =? 2) && (c =? 1))) (at_index COLS 1)
    (digitalWrite (at_index ROWS 2) LOW
       (for_upto ROW_COUNT (fun i => digitalWrite (at_index ROWS i) HIGH) boot))
  = HIGH.
Proof.
  rewrite (scan_row_reads_only_its_own_switches
             (fun r c => negb ((r =? 2) && (c =? 1))) 2 1 boot);
    [reflexivity | unfold ROW_COUNT; lia | unfold COL_COUNT; lia].
Defined.

(** X7: the key index [row * COL_COUNT + col] of the scan fits a byte,
    lies below [NUM_KEYS] and gives back the row by division and the
    column by remainder, so that distinct switches get distinct indices;
    and every index below [NUM_KEYS] is the index of a switch. *)
Theorem key_index_round_trip row col :
  0 <= row < ROW_COUNT -> 0 <= col < COL_COUNT ->
  let k := u8 (row * COL_COUNT + col) in
  0 <= k < NUM_KEYS /\ k ∈ key_indices /\
  k / COL_COUNT = row /\ k mod COL_COUNT = col /\
  (forall row' col', 0 <= row' < ROW_COUNT -> 0 <= col' < COL_COUNT ->
     u8 (row' * COL_COUNT + col') = k -> row' = row /\ col' = col) /\
  (forall k', 0 <= k' < NUM_KEYS ->
     0 <= k' / COL_COUNT < ROW_COUNT /\ 0 <= k' mod COL_COUNT < COL_COUNT /\
     u8 (k' / COL_COUNT * COL_COUNT + k' mod COL_COUNT) = k').
Proof.
  change NUM_KEYS with 12. unfold ROW_COUNT, COL_COUNT, key_indices.
  change NUM_KEYS with 12.
  intros Hrow Hcol. cbv zeta.
  rewrite (u8_small (row * 3 + col)) by (unfold is_u8; lia).
  split; [lia |]. split; [apply elem_of_seqZ; lia |].
  split; [rewrite Z.div_add_l by lia; rewrite Z.div_small by lia; lia |].
  split; [rewrite Z.add_comm, Z.mod_add by lia; apply Z.mod_small; lia |].
  split.
  - intros row' col' Hr' Hc'.
    rewrite (u8_small (row' * 3 + col')) by (unfold is_u8; lia). lia.
  - intros k' Hk'.
    assert (Hdm := Z.div_mod k' 3 ltac:(lia)).
    assert (Hm := Z.mod_pos_bound k' 3 ltac:(lia)).
    split; [| split; [lia |]].
    + split; [apply Z.div_pos; lia | apply Z.div_lt_upper_bound; lia].
    + rewrite u8_small by (unfold is_u8; lia). lia.
Qed.

Lemma key_index_round_trip_witness :
  u8 (3 * COL_COUNT + 2) / COL_COUNT = 3 /\ u8 (3 * COL_COUNT + 2) mod COL_COUNT = 2.
Proof.
  destruct (key_index_round_trip 3 2) as (_ & _ & Hd & Hm & _);
    [unfold ROW_COUNT; lia | unfold COL_COUNT; lia |].
  split; [exact Hd | exact Hm].
Defined.

(** ** Sleep, wake lines and the state they leave alone *)

Lemma enterSleep_split irq s :
  enterSleep irq s = sleep_resume (sleep_cpu irq (sleep_prepare s)).
Proof. reflexivity. Qed.

Lemma sleep_prepare_soft s :
  systemWakeUp (sleep_prepare s) = systemWakeUp s /\
  i2cBuffer (sleep_prepare s) = i2cBuffer s /\
  i2cWriteIndex (sleep_prepare s) = i2cWriteIndex s /\
  newKeyEvent (sleep_prepare s) = newKeyEvent s /\
  lastScanTime (sleep_prepare s) = lastScanTime s /\
  lastKeyState (sleep_prepare s) = lastKeyState s /\
  currentKeyState (sleep_prepare s) = currentKeyState s /\
  currentRegister (sleep_prepare s) = currentRegister s.
Proof. repeat split. Qed.

Lemma sleep_resume_soft s :
  systemWakeUp (sleep_resume s) = systemWakeUp s /\
  i2cBuffer (sleep_resume s) = i2cBuffer s /\
  i2cWriteIndex (sleep_resume s) = i2cWriteIndex s /\
  newKeyEvent (sleep_resume s) = newKeyEvent s /\
  lastScanTime (sleep_resume s) = lastScanTime s /\
  lastKeyState (sleep_resume s) = lastKeyState s /\
  currentKeyState (sleep_resume s) = currentKeyState s /\
  currentRegister (sleep_resume s) = currentRegister s.
Proof. repeat split. Qed.

Lemma receive_data_soft rx : forall n s,
  newKeyEvent (receive_data n rx s) = newKeyEvent s /\
  lastScanTime (receive_data n rx s) = lastScanTime s /\
  lastKeyState (receive_data n rx s) = lastKeyState s /\
  currentKeyState (receive_data n rx s) = currentKeyState s /\
  length (i2cBuffer (receive_data n rx s)) = length (i2cBuffer s).
Proof.
  induction rx as [| d rx IH]; intros n s; cbn [receive_data]; [auto |].
  destruct (0 <? n); [| auto].
  match goal with |- context [receive_data _ rx ?x] =>
    destruct (IH (n - 1) x) as (-> & -> & -> & -> & ->)
  end.
  destruct (_ <? _); cbn; rewrite ?length_store; auto.
Qed.

Lemma onI2CReceive_soft n rx s :
  systemWakeUp (onI2CReceive n rx s) = systemWakeUp s /\
  newKeyEvent (onI2CReceive n rx s) = newKeyEvent s /\
  lastScanTime (onI2CReceive n rx s) = lastScanTime s /\
  lastKeyState (onI2CReceive n rx s) = lastKeyState s /\
  currentKeyState (onI2CReceive n rx s) = currentKeyState s /\
  length (i2cBuffer (onI2CReceive n rx s)) = length (i2cBuffer s).
Proof.
  unfold onI2CReceive. destruct (0 <? n); [| auto 10].
  destruct (Wire_read rx) as [b rx'].
  destruct (receive_data_hw rx' (n - 1) (set_currentRegister (u8 b) s))
    as (_ & _ & ->).
  destruct (receive_data_soft rx' (n - 1) (set_currentRegister (u8 b) s))
    as (-> & -> & -> & -> & ->).
  auto 10.
Qed.

Lemma onI2CRequest_soft s :
  systemWakeUp (snd (onI2CRequest s)) = systemWakeUp s /\
  newKeyEvent (snd (onI2CRequest s)) = newKeyEvent s /\
  lastScanTime (snd (onI2CRequest s)) = lastScanTime s /\
  lastKeyState (snd (onI2CRequest s)) = lastKeyState s /\
  currentKeyState (snd (onI2CRequest s)) = currentKeyState s /\
  i2cBuffer (snd (onI2CRequest s)) = i2cBuffer s /\
  currentRegister (snd (onI2CRequest s)) = currentRegister s.
Proof.
  unfold onI2CRequest.
  destruct (_ =? REG_ID_PROBE); [auto 10 |].
  destruct (_ =? REG_KEY_EVENT); cbn; auto 10.
Qed.

Lemma ISR_soft irq s :
  newKeyEvent (ISR irq s) = newKeyEvent s /\
  lastScanTime (ISR irq s) = lastScanTime s /\
  lastKeyState (ISR irq s) = lastKeyState s /\
  currentKeyState (ISR irq s) = currentKeyState s /\
  length (i2cBuffer (ISR irq s)) = length (i2cBuffer s).
Proof.
  destruct irq as [| | rx |]; cbn [ISR]; auto.
  - unfold bus_write.
    destruct (onI2CReceive_soft (Z.of_nat (length rx)) rx s)
      as (_ & -> & -> & -> & -> & ->). auto.
  - destruct (onI2CRequest_soft s) as (_ & -> & -> & -> & -> & -> & _). auto.
Qed.

Lemma ISR_wake_line irq s : is_wake_line irq -> ISR irq s = set_systemWakeUp true s.
Proof. destruct irq; cbn; intros H; (reflexivity || contradiction). Qed.

Lemma ISR_bus_flag irq s : ~ is_wake_line irq -> systemWakeUp (ISR irq s) = systemWakeUp s.
Proof.
  destruct irq as [| | rx |]; cbn [is_wake_line ISR]; intros H;
    try (exfalso; apply H; exact I).
  - unfold bus_write. apply onI2CReceive_soft.
  - apply onI2CRequest_soft.
Qed.

(** X8: the sleep routine loses nothing the firmware has stored: it
    leaves the scan clock, the key states and the event flag as they were
    and clears the sleep-enable bit; ended by a wake line it returns with
    the wake flag set and the queue and the selected register untouched,
    ended by a bus transaction it leaves the wake flag as it was. *)
Theorem sleep_keeps_the_software_state irq s :
  let s' := enterSleep irq s in
  lastScanTime s' = lastScanTime s /\
  lastKeyState s' = lastKeyState s /\
  currentKeyState s' = currentKeyState s /\
  newKeyEvent s' = newKeyEvent s /\
  sleepEnabled s' = false /\
  (is_wake_line irq ->
   systemWakeUp s' = true /\ queued s' = queued s /\
   i2cBuffer s' = i2cBuffer s /\ currentRegister s' = currentRegister s) /\
  (~ is_wake_line irq -> systemWakeUp s' = systemWakeUp s).
Proof.
  cbv zeta. rewrite enterSleep_split. unfold sleep_cpu.
  destruct (sleep_resume_soft (ISR irq (sleep_prepare s)))
    as (Hf & Hb & Hi & He & Ht & Hl & Hc & Hr).
  destruct (ISR_soft irq (sleep_prepare s)) as (He' & Ht' & Hl' & Hc' & _).
  rewrite Ht, Hl, Hc, He, Ht', Hl', Hc', He'.
  repeat (split; [reflexivity |]).
  split.
  - intros Hw. unfold queued. rewrite Hf, Hb, Hi, Hr.
    rewrite (ISR_wake_line irq _ Hw). repeat split.
  - intros Hw. rewrite Hf. rewrite (ISR_bus_flag irq _ Hw). reflexivity.
Qed.




(** ** The control loop: wake flag and scan cadence *)

Lemma wake_lines_coalesce irqs : forall s,
  Forall is_wake_line irqs ->
  foldl (fun st irq => ISR irq st) (set_systemWakeUp true s) irqs
  = set_systemWakeUp true s.
Proof.
  induction irqs as [| irq irqs IH]; intros s Hw; [reflexivity |].
  apply Forall_cons in Hw as [Hirq Hw]. cbn [foldl].
  rewrite (ISR_wake_line irq _ Hirq).
  change (set_systemWakeUp true (set_systemWakeUp true s))
    with (set_systemWakeUp true s).
  apply IH, Hw.
Qed.

Lemma enterSleep_lastScanTime irq s :
  lastScanTime (enterSleep irq s) = lastScanTime s.
Proof.
  rewrite enterSleep_split. unfold sleep_cpu.
  destruct (sleep_resume_soft (ISR irq (sleep_prepare s)))
    as (_ & _ & _ & _ & -> & _).
  destruct (ISR_soft irq (sleep_prepare s)) as (_ & -> & _).
  reflexivity.
Qed.

Lemma set_systemWakeUp_time b s :
  lastScanTime (set_systemWakeUp b s) = lastScanTime s.
Proof. reflexivity. Qed.

Lemma loop_scan_test inp s :
  lastScanTime
    (set_systemWakeUp false
       (if negb (systemWakeUp s) then enterSleep (wake inp) s else s))
  = lastScanTime s.
Proof.
  rewrite set_systemWakeUp_time.
  destruct (negb (systemWakeUp s)); [| reflexivity].
  apply enterSleep_lastScanTime.
Qed.

(** X10: wake interrupts that arrive while the chip is awake are merged
    into one pending flag: after any number of them (at least one) the
    state is the one a single interrupt leaves, the next pass of the loop
    does not sleep and clears the flag, and the pass after that sleeps. *)
Theorem pending_wake_flag_skips_one_sleep irqs inp s :
  irqs <> [] -> Forall is_wake_line irqs ->
  let s1 := foldl (fun st irq => ISR irq st) s irqs in
  s1 = set_systemWakeUp true s /\
  (ActSleep ∉ fst (loop inp s1)) /\
  systemWakeUp (snd (loop inp s1)) = false /\
  forall inp', head (fst (loop inp' (snd (loop inp s1)))) = Some ActSleep.
Proof.
  intros Hne Hw. cbv zeta.
  assert (H1 : foldl (fun st irq => ISR irq st) s irqs = set_systemWakeUp true s).
  { destruct irqs as [| irq irqs]; [contradiction |].
    apply Forall_cons in Hw as [Hirq Hw]. cbn [foldl].
    rewrite (ISR_wake_line irq s Hirq). apply wake_lines_coalesce, Hw. }
  rewrite H1. split; [reflexivity |].
  split; [| split].
  - rewrite loop_actions. cbv zeta.
    cbn [systemWakeUp set_systemWakeUp negb app].
    destruct (_ <=? _); intros Hin.
    + apply list_elem_of_singleton in Hin. discriminate Hin.
    + apply elem_of_nil in Hin. exact Hin.
  - apply loop_clears_flag.
  - intros inp'. apply loop_sleeps_without_flag, loop_clears_flag.
Qed.

Lemma pending_wake_flag_skips_one_sleep_witness :
  fst (loop (mkLoopInput INT0_vect 100 100 key5_down)
         (ISR INT1_vect (ISR INT0_vect (ISR INT0_vect boot))))
  = [ActScan].
Proof.
  assert (Hne : [INT0_vect; INT0_vect; INT1_vect] <> []) by discriminate.
  assert (Hw : Forall is_wake_line [INT0_vect; INT0_vect; INT1_vect])
    by (repeat constructor).
  destruct (pending_wake_flag_skips_one_sleep
              [INT0_vect; INT0_vect; INT1_vect]
              (mkLoopInput INT0_vect 100 100 key5_down) boot Hne Hw)
    as (H1 & _).
  cbn [foldl] in H1. rewrite H1. vm_compute. reflexivity.
Defined.

Lemma u32_elapsed last e :
  0 <= e < 2 ^ 32 -> u32 (u32 (last + e) - last) = e.
Proof.
  intros He. unfold u32.
  rewrite Zminus_mod_idemp_l.
  replace (last + e - last) with e by lia.
  apply Z.mod_small. exact He.
Qed.

(** X11: the scan cadence survives the roll-over of the millisecond
    clock: when [e] milliseconds (less than 2^32) have passed since the
    last scan, a pass of the loop scans exactly when [e >= 10], even if
    the 32-bit clock has wrapped in between; it then stores the clock
    reading as the time of the last scan, and keeps it otherwise. *)
Theorem scan_cadence_survives_clock_rollover inp s e :
  0 <= e < 2 ^ 32 ->
  now_scan inp = lastScanTime s + e ->
  (ActScan ∈ fst (loop inp s) <-> SCAN_INTERVAL_MS <= e) /\
  lastScanTime (snd (loop inp s))
  = (if SCAN_INTERVAL_MS <=? e then u32 (now_scan inp) else lastScanTime s).
Proof.
  intros He Hnow.
  rewrite loop_actions, loop_state. cbv zeta.
  rewrite loop_scan_test, Hnow, (u32_elapsed _ _ He).
  destruct (Z.leb_spec SCAN_INTERVAL_MS e) as [Hdue | Hearly].
  - split.
    + split; [intros _; exact Hdue |].
      intros _. apply elem_of_app. right. apply list_elem_of_singleton. reflexivity.
    + reflexivity.
  - split.
    + split; [| lia]. intros Hin. rewrite app_nil_r in Hin.
      destruct (negb (systemWakeUp s)).
      * apply list_elem_of_singleton in Hin. discriminate Hin.
      * apply elem_of_nil in Hin. contradiction.
    + apply loop_scan_test.
Qed.

Lemma scan_cadence_survives_clock_rollover_witness :
  let s := set_lastScanTime (2 ^ 32 - 5) boot in
  fst (loop (mkLoopInput INT0_vect (2 ^ 32 + 7) 0 key5_down) s) = [ActSleep; ActScan] /\
  lastScanTime (snd (loop (mkLoopInput INT0_vect (2 ^ 32 + 7) 0 key5_down) s)) = 7.
Proof.
  cbn zeta.
  assert (He : 0 <= 12 < 2 ^ 32) by lia.
  destruct (scan_cadence_survives_clock_rollover
              (mkLoopInput INT0_vect (2 ^ 32 + 7) 0 key5_down)
              (set_lastScanTime (2 ^ 32 - 5) boot) 12 He)
    as [_ Ht]; [reflexivity |].
  split; [vm_compute; reflexivity |].
  rewrite Ht. reflexivity.
Defined.

(** ** What every run keeps *)

Lemma set_systemWakeUp_buffer b s : i2cBuffer (set_systemWakeUp b s) = i2cBuffer s.
Proof. reflexivity. Qed.

Lemma set_systemWakeUp_last b s :
  lastKeyState (set_systemWakeUp b s) = lastKeyState s.
Proof. reflexivity. Qed.

Lemma set_systemWakeUp_current b s :
  currentKeyState (set_systemWakeUp b s) = currentKeyState s.
Proof. reflexivity. Qed.

Lemma set_lastScanTime_buffer t s : i2cBuffer (set_lastScanTime t s) = i2cBuffer s.
Proof. reflexivity. Qed.

Lemma set_lastScanTime_last t s :
  lastKeyState (set_lastScanTime t s) = lastKeyState s.
Proof. reflexivity. Qed.

Lemma set_lastScanTime_current t s :
  currentKeyState (set_lastScanTime t s) = currentKeyState s.
Proof. reflexivity. Qed.

Lemma well_formed_same s s' :
  i2cBuffer s' = i2cBuffer s -> i2cWriteIndex s' = i2cWriteIndex s ->
  lastKeyState s' = lastKeyState s -> currentKeyState s' = currentKeyState s ->
  well_formed s -> well_formed s'.
Proof.
  unfold well_formed, arrays_ok, index_ok, key_states_ok.
  intros -> -> -> ->. auto.
Qed.

Lemma whole_events_same s s' :
  i2cBuffer s' = i2cBuffer s -> i2cWriteIndex s' = i2cWriteIndex s ->
  whole_events s -> whole_events s'.
Proof. unfold whole_events, queued. intros -> ->. auto. Qed.

Lemma encode_all_snoc evs k v :
  encode_all (evs ++ [(k, v)]) = encode_all evs ++ encode k v.
Proof.
  unfold encode_all. rewrite fmap_app, concat_app. cbn. rewrite ?app_nil_r.
  reflexivity.
Qed.

Lemma encode_all_app evs evs' :
  encode_all (evs ++ evs') = encode_all evs ++ encode_all evs'.
Proof. unfold encode_all. rewrite fmap_app, concat_app. reflexivity. Qed.

Lemma length_encode_all evs : length (encode_all evs) = (2 * length evs)%nat.
Proof.
  induction evs as [| e evs IH]; [reflexivity |].
  unfold encode_all in *. cbn. rewrite IH. lia.
Qed.

Lemma queueKeyEvent_well_formed k p s :
  well_formed s -> well_formed (queueKeyEvent k p s).
Proof.
  intros ((Hb & Hl & Hc) & Hi & Hk & Hk').
  destruct (queueKeyEvent_others k p s) as (_ & _ & El & Ec & _).
  split; [| split].
  - unfold arrays_ok. rewrite queueKeyEvent_buffer_length, El, Ec. auto.
  - apply queueKeyEvent_index_ok, Hi.
  - unfold key_states_ok. rewrite El, Ec. auto.
Qed.

Lemma queueKeyEvent_whole_events k p s :
  well_formed s -> whole_events s -> whole_events (queueKeyEvent k p s).
Proof.
  intros ((Hb & _) & Hi & _) (evs & Hq & Hev).
  destruct (Z.lt_ge_cases (free_bytes s) 2) as [Hfull | Hroom].
  - rewrite queueKeyEvent_full by exact Hfull. exists evs. auto.
  - destruct (queueKeyEvent_room k p s Hb (proj1 Hi) Hroom) as (_ & Hq' & _).
    exists (evs ++ [(u8 k, u8 p)]). split.
    + rewrite Hq', Hq, encode_all_snoc. reflexivity.
    + apply Forall_app. split; [exact Hev |].
      repeat constructor; apply u8_is_u8.
Qed.

Lemma onI2CReceive_well_formed n rx s :
  well_formed s -> well_formed (onI2CReceive n rx s).
Proof.
  intros ((Hb & Hl & Hc) & Hi & Hk & Hk').
  destruct (onI2CReceive_soft n rx s) as (_ & _ & _ & El & Ec & Eb).
  split; [| split].
  - unfold arrays_ok. rewrite Eb, El, Ec. auto.
  - apply onI2CReceive_index_ok, Hi.
  - unfold key_states_ok. rewrite El, Ec. auto.
Qed.

Lemma onI2CReceive_selector_only n rx s :
  selector_only n rx ->
  i2cBuffer (onI2CReceive n rx s) = i2cBuffer s /\
  i2cWriteIndex (onI2CReceive n rx s) = i2cWriteIndex s.
Proof.
  unfold selector_only, onI2CReceive. intros Hsel.
  destruct (Z.ltb_spec 0 n) as [Hn | Hn]; [| auto].
  destruct rx as [| b [| d rx]]; cbn [Wire_read receive_data]; [auto | auto |].
  destruct (Z.ltb_spec 0 (n - 1)) as [Hn' | Hn']; [| auto].
  destruct Hsel as [Hsel | Hsel]; [lia | cbn in Hsel; lia].
Qed.

Lemma onI2CRequest_well_formed s :
  well_formed s -> well_formed (snd (onI2CRequest s)).
Proof.
  intros ((Hb & Hl & Hc) & Hi & Hk & Hk').
  destruct (onI2CRequest_soft s) as (_ & _ & _ & El & Ec & Eb & _).
  split; [| split].
  - unfold arrays_ok. rewrite Eb, El, Ec. auto.
  - apply onI2CRequest_index_ok, Hi.
  - unfold key_states_ok. rewrite El, Ec. auto.
Qed.

Lemma onI2CRequest_whole_events s :
  whole_events s -> whole_events (snd (onI2CRequest s)).
Proof.
  intros Hw. unfold onI2CRequest.
  destruct (_ =? REG_ID_PROBE); [exact Hw |].
  destruct (_ =? REG_KEY_EVENT); [| exact Hw].
  exists []. split; [reflexivity | constructor].
Qed.

Lemma sensed_bits keys :
  Forall (fun v => v = 0 \/ v = 1) (sensed keys <$> key_indices).
Proof.
  apply Forall_fmap, Forall_forall. intros k _. apply sensed_bit.
Qed.

Lemma scanKeypad_well_formed keys s :
  well_formed s -> well_formed (scanKeypad keys s).
Proof.
  intros (Hok & Hi & _).
  split; [| split].
  - rewrite (scanKeypad_scan_spec keys s Hok). apply scan_spec_arrays_ok, Hok.
  - apply scanKeypad_index_ok, Hi.
  - rewrite (scanKeypad_scan_spec keys s Hok).
    split; apply sensed_bits.
Qed.

Lemma scanKeypad_queued keys s :
  arrays_ok s -> index_ok s ->
  queued (scanKeypad keys s)
  = queued s ++ encode_all (admitted (transitions keys (lastKeyState s)) s).
Proof.
  intros Hok Hi. rewrite (scanKeypad_scan_spec keys s Hok), scan_spec_queued.
  apply (enqueue_all_queued _ s (proj1 Hok) Hi (transitions_u8 keys _)).
Qed.

Lemma scanKeypad_whole_events keys s :
  well_formed s -> whole_events s -> whole_events (scanKeypad keys s).
Proof.
  intros (Hok & Hi & _) (evs & Hq & Hev).
  exists (evs ++ admitted (transitions keys (lastKeyState s)) s). split.
  - rewrite (scanKeypad_queued keys s Hok Hi), Hq, encode_all_app. reflexivity.
  - apply Forall_app. split; [exact Hev |].
    unfold admitted. apply Forall_take, transitions_u8.
Qed.

Lemma ISR_well_formed irq s : well_formed s -> well_formed (ISR irq s).
Proof.
  intros H. destruct irq as [| | rx |]; cbn [ISR].
  - exact H.
  - exact H.
  - apply onI2CReceive_well_formed, H.
  - apply onI2CRequest_well_formed, H.
Qed.

Lemma ISR_whole_events irq s :
  irq_without_data irq -> whole_events s -> whole_events (ISR irq s).
Proof.
  intros Hd Hw. destruct irq as [| | rx |]; cbn [ISR irq_without_data] in *.
  - exact Hw.
  - exact Hw.
  - unfold bus_write.
    destruct (onI2CReceive_selector_only (Z.of_nat (length rx)) rx s
                (or_intror Hd)) as [Eb Ei].
    exact (whole_events_same _ _ Eb Ei Hw).
  - apply onI2CRequest_whole_events, Hw.
Qed.

Lemma sleep_prepare_well_formed s : well_formed s -> well_formed (sleep_prepare s).
Proof. apply well_formed_same; reflexivity. Qed.

Lemma sleep_resume_well_formed s : well_formed s -> well_formed (sleep_resume s).
Proof. apply well_formed_same; reflexivity. Qed.

Lemma enterSleep_well_formed irq s : well_formed s -> well_formed (enterSleep irq s).
Proof.
  intros H. rewrite enterSleep_split. unfold sleep_cpu.
  apply sleep_resume_well_formed, ISR_well_formed, sleep_prepare_well_formed, H.
Qed.

Lemma enterSleep_whole_events irq s :
  irq_without_data irq -> whole_events s -> whole_events (enterSleep irq s).
Proof.
  intros Hd Hw. rewrite enterSleep_split. unfold sleep_cpu.
  destruct (sleep_resume_soft (ISR irq (sleep_prepare s)))
    as (_ & Eb & Ei & _).
  apply (whole_events_same _ _ Eb Ei).
  apply (ISR_whole_events irq _ Hd).
  apply (whole_events_same s); [reflexivity | reflexivity | exact Hw].
Qed.

Lemma loop_well_formed inp s : well_formed s -> well_formed (snd (loop inp s)).
Proof.
  intros H. rewrite loop_state. cbv zeta.
  assert (H2 : well_formed (set_systemWakeUp false
                 (if negb (systemWakeUp s) then enterSleep (wake inp) s else s))).
  { destruct (negb (systemWakeUp s)).
    - apply (well_formed_same (enterSleep (wake inp) s));
        [apply set_systemWakeUp_buffer | apply index_set_systemWakeUp
        | apply set_systemWakeUp_last | apply set_systemWakeUp_current |].
      apply enterSleep_well_formed, H.
    - exact H. }
  destruct (_ <=? _); [| exact H2].
  match goal with |- well_formed (set_lastScanTime ?t ?x) =>
    apply (well_formed_same x);
      [apply set_lastScanTime_buffer | apply index_set_lastScanTime
      | apply set_lastScanTime_last | apply set_lastScanTime_current |]
  end.
  apply scanKeypad_well_formed, H2.
Qed.

Lemma loop_whole_events inp s :
  well_formed s -> irq_without_data (wake inp) ->
  whole_events s -> whole_events (snd (loop inp s)).
Proof.
  intros H Hd Hw. rewrite loop_state. cbv zeta.
  assert (H2 : well_formed (set_systemWakeUp false
                 (if negb (systemWakeUp s) then enterSleep (wake inp) s else s))).
  { destruct (negb (systemWakeUp s)).
    - apply (well_formed_same (enterSleep (wake inp) s));
        [apply set_systemWakeUp_buffer | apply index_set_systemWakeUp
        | apply set_systemWakeUp_last | apply set_systemWakeUp_current |].
      apply enterSleep_well_formed, H.
    - exact H. }
  assert (W2 : whole_events (set_systemWakeUp false
                 (if negb (systemWakeUp s) then enterSleep (wake inp) s else s))).
  { destruct (negb (systemWakeUp s)).
    - apply (whole_events_same (enterSleep (wake inp) s));
        [apply set_systemWakeUp_buffer | apply index_set_systemWakeUp |].
      apply enterSleep_whole_events; assumption.
    - exact Hw. }
  destruct (_ <=? _); [| exact W2].
  match goal with |- whole_events (set_lastScanTime ?t ?x) =>
    apply (whole_events_same x);
      [apply set_lastScanTime_buffer | apply index_set_lastScanTime |]
  end.
  apply scanKeypad_whole_events; assumption.
Qed.

Lemma run_op_well_formed op s : well_formed s -> well_formed (run_op s op).
Proof.
  intros H. destruct op; cbn [run_op].
  - apply queueKeyEvent_well_formed, H.
  - apply onI2CReceive_well_formed, H.
  - apply onI2CRequest_well_formed, H.
  - apply scanKeypad_well_formed, H.
  - apply ISR_well_formed, H.
  - apply loop_well_formed, H.
Qed.

Lemma run_op_whole_events op s :
  well_formed s -> op_without_data op ->
  whole_events s -> whole_events (run_op s op).
Proof.
  intros H Hd Hw. destruct op; cbn [run_op op_without_data] in *.
  - apply queueKeyEvent_whole_events; assumption.
  - destruct (onI2CReceive_selector_only byteCount rx s Hd) as [Eb Ei].
    exact (whole_events_same _ _ Eb Ei Hw).
  - apply onI2CRequest_whole_events, Hw.
  - apply scanKeypad_whole_events; assumption.
  - apply ISR_whole_events; assumption.
  - apply loop_whole_events; assumption.
Qed.

Lemma run_well_formed ops : forall s, well_formed s -> well_formed (run ops s).
Proof.
  induction ops as [| op ops IH]; intros s H; [exact H |].
  change (run (op :: ops) s) with (run ops (run_op s op)).
  apply IH, run_op_well_formed, H.
Qed.

(** X12: a series of operations each run to completion (an enqueue, a
    write transaction, a read, a scan, an interrupt handler, a loop pass;
    no handler taken inside another operation) keeps the state well
    formed: the write index stays between 0 and 16, the arrays keep their
    sizes, and every stored key state is 0 or 1.  The state after [setup]
    is well formed. *)
Theorem runs_keep_the_state_well_formed s ops :
  well_formed s -> well_formed (run ops s).
Proof. intros H. apply run_well_formed, H. Qed.

Lemma runs_keep_the_state_well_formed_witness :
  well_formed boot /\
  well_formed (run [OpLoop (mkLoopInput INT0_vect 100 100 key5_down);
                    OpReceive 2 [0x84; 9]; OpRequest] boot).
Proof.
  assert (H : well_formed boot).
  { split; [vm_compute; auto |]. split; [vm_compute; split; discriminate |].
    split; vm_compute; repeat constructor. }
  split; [exact H |].
  apply (runs_keep_the_state_well_formed boot _ H).
Defined.

(** X13: in a series of operations each run to completion, of which no
    write transaction carries data bytes, the queue holds whole events
    only: after the enqueues, scans, loop passes, reads, selector-only
    writes and interrupt handlers of the series, its bytes are the
    two-byte encodings of a series of events, and the write index is
    even.  (A handler taken inside the enqueue is another matter: see
    [queueKeyEvent_preempted].) *)
Theorem queue_holds_whole_events s ops :
  well_formed s -> whole_events s -> Forall op_without_data ops ->
  whole_events (run ops s) /\ Z.even (i2cWriteIndex (run ops s)) = true.
Proof.
  intros H Hw Hops.
  assert (Hrun : well_formed (run ops s) /\ whole_events (run ops s)).
  { revert s H Hw. induction Hops as [| op ops Hop _ IH]; intros s H Hw;
      [split; assumption |].
    change (run (op :: ops) s) with (run ops (run_op s op)).
    apply IH.
    - apply run_op_well_formed, H.
    - apply run_op_whole_events; assumption. }
  destruct Hrun as (((Hb & _) & Hi & _) & (evs & Hq & Hev)).
  split; [exists evs; auto |].
  assert (Hlen : length (queued (run ops s)) = (2 * length evs)%nat)
    by (rewrite Hq; apply length_encode_all).
  unfold queued in Hlen. rewrite length_take in Hlen.
  unfold index_ok, I2C_BUFFER_SIZE in Hi.
  replace (i2cWriteIndex (run ops s)) with (2 * Z.of_nat (length evs)) by lia.
  apply Z.even_mul.
Qed.

Lemma queue_holds_whole_events_witness :
  Z.even (i2cWriteIndex
            (run [OpLoop (mkLoopInput INT0_vect 100 100 key5_down);
                  OpReceive 1 [0x90]; OpRequest; OpEnqueue 3 0] boot)) = true.
Proof.
  assert (H : well_formed boot).
  { split; [vm_compute; auto |]. split; [vm_compute; split; discriminate |].
    split; vm_compute; repeat constructor. }
  assert (Hw : whole_events boot)
    by (exists []; split; [reflexivity | constructor]).
  apply (queue_holds_whole_events boot _ H Hw).
  repeat constructor; cbn; lia.
Defined.

(** ** The event flag *)

Lemma queueKeyEvent_flag_kept k p s :
  newKeyEvent s = true -> newKeyEvent (queueKeyEvent k p s) = true.
Proof. unfold queueKeyEvent. destruct (_ <=? _); [reflexivity | auto]. Qed.

Lemma queueKeyEvent_flag_set k p s :
  2 <= free_bytes s -> newKeyEvent (queueKeyEvent k p s) = true.
Proof.
  unfold free_bytes, queueKeyEvent, I2C_BUFFER_SIZE. intros H.
  destruct (Z.leb_spec (i2cWriteIndex s + 2) 16); [reflexivity | lia].
Qed.

Lemma enqueue_all_flag_kept evs : forall s,
  newKeyEvent s = true -> newKeyEvent (enqueue_all evs s) = true.
Proof.
  induction evs as [| e evs IH]; intros s H; [exact H |].
  change (enqueue_all (e :: evs) s)
    with (enqueue_all evs (queueKeyEvent (fst e) (snd e) s)).
  apply IH, queueKeyEvent_flag_kept, H.
Qed.

Lemma scanKeypad_flag_kept keys s :
  arrays_ok s -> newKeyEvent s = true -> newKeyEvent (scanKeypad keys s) = true.
Proof.
  intros Hok H. rewrite (scanKeypad_scan_spec keys s Hok).
  apply (enqueue_all_flag_kept (transitions keys (lastKeyState s)) s H).
Qed.

Lemma enterSleep_flag_kept irq s :
  newKeyEvent (enterSleep irq s) = newKeyEvent s.
Proof.
  rewrite enterSleep_split. unfold sleep_cpu.
  destruct (sleep_resume_soft (ISR irq (sleep_prepare s)))
    as (_ & _ & _ & -> & _).
  destruct (ISR_soft irq (sleep_prepare s)) as (-> & _).
  reflexivity.
Qed.

Lemma set_lastScanTime_event t s : newKeyEvent (set_lastScanTime t s) = newKeyEvent s.
Proof. reflexivity. Qed.

Lemma set_systemWakeUp_event b s : newKeyEvent (set_systemWakeUp b s) = newKeyEvent s.
Proof. reflexivity. Qed.

Lemma loop_flag_kept inp s :
  well_formed s -> newKeyEvent s = true -> newKeyEvent (snd (loop inp s)) = true.
Proof.
  intros H Hf. rewrite loop_state. cbv zeta.
  assert (H2 : well_formed (set_systemWakeUp false
                 (if negb (systemWakeUp s) then enterSleep (wake inp) s else s))).
  { destruct (negb (systemWakeUp s)).
    - apply (well_formed_same (enterSleep (wake inp) s));
        [apply set_systemWakeUp_buffer | apply index_set_systemWakeUp
        | apply set_systemWakeUp_last | apply set_systemWakeUp_current |].
      apply enterSleep_well_formed, H.
    - exact H. }
  assert (F2 : newKeyEvent (set_systemWakeUp false
                 (if negb (systemWakeUp s) then enterSleep (wake inp) s else s))
               = true).
  { rewrite set_systemWakeUp_event. destruct (negb (systemWakeUp s)).
    - rewrite enterSleep_flag_kept. exact Hf.
    - exact Hf. }
  destruct (_ <=? _); [| exact F2].
  rewrite set_lastScanTime_event.
  apply scanKeypad_flag_kept; [apply H2 | exact F2].
Qed.

Lemma run_op_flag_kept op s :
  well_formed s -> newKeyEvent s = true -> newKeyEvent (run_op s op) = true.
Proof.
  intros H Hf. destruct op; cbn [run_op].
  - apply queueKeyEvent_flag_kept, Hf.
  - destruct (onI2CReceive_soft byteCount rx s) as (_ & -> & _). exact Hf.
  - destruct (onI2CRequest_soft s) as (_ & -> & _). exact Hf.
  - apply scanKeypad_flag_kept; [apply H | exact Hf].
  - destruct (ISR_soft irq s) as (-> & _). exact Hf.
  - apply loop_flag_kept; assumption.
Qed.

Lemma run_flag_kept ops : forall s,
  well_formed s -> newKeyEvent s = true -> newKeyEvent (run ops s) = true.
Proof.
  induction ops as [| op ops IH]; intros s H Hf; [exact Hf |].
  change (run (op :: ops) s) with (run ops (run_op s op)).
  apply IH; [apply run_op_well_formed, H | apply run_op_flag_kept; assumption].
Qed.

(** X14: the event flag is raised by the first event the queue admits and
    nothing ever lowers it: after an enqueue that found room,
    [newKeyEvent] is true and stays true through every run, reads that
    empty the queue included. *)
Theorem event_flag_is_raised_and_never_cleared s keyIndex pressed ops :
  well_formed s -> 2 <= free_bytes s ->
  newKeyEvent (run ops (queueKeyEvent keyIndex pressed s)) = true.
Proof.
  intros H Hroom. apply run_flag_kept.
  - apply queueKeyEvent_well_formed, H.
  - apply queueKeyEvent_flag_set, Hroom.
Qed.

Lemma event_flag_is_raised_and_never_cleared_witness :
  newKeyEvent boot = false /\
  newKeyEvent (run [OpReceive 1 [0x84]; OpRequest] (queueKeyEvent 5 1 boot)) = true /\
  queued (run [OpReceive 1 [0x84]; OpRequest] (queueKeyEvent 5 1 boot)) = [].
Proof.
  assert (H : well_formed boot).
  { split; [vm_compute; auto |]. split; [vm_compute; split; discriminate |].
    split; vm_compute; repeat constructor. }
  assert (Hroom : 2 <= free_bytes boot) by (vm_compute; discriminate).
  split; [reflexivity |]. split; [| vm_compute; reflexivity].
  apply (event_flag_is_raised_and_never_cleared boot 5 1 _ H Hroom).
Defined.

(** ** From a key to the host *)

Lemma enterSleep_wake_soft irq s :
  is_wake_line irq ->
  i2cBuffer (enterSleep irq s) = i2cBuffer s /\
  i2cWriteIndex (enterSleep irq s) = i2cWriteIndex s /\
  lastKeyState (enterSleep irq s) = lastKeyState s /\
  currentRegister (enterSleep irq s) = currentRegister s.
Proof.
  intros Hw. rewrite enterSleep_split. unfold sleep_cpu.
  rewrite (ISR_wake_line irq _ Hw). repeat split.
Qed.

Lemma set_systemWakeUp_register b s :
  currentRegister (set_systemWakeUp b s) = currentRegister s.
Proof. reflexivity. Qed.

Lemma set_lastScanTime_register t s :
  currentRegister (set_lastScanTime t s) = currentRegister s.
Proof. reflexivity. Qed.

Lemma set_lastScanTime_time t s : lastScanTime (set_lastScanTime t s) = t.
Proof. reflexivity. Qed.

Lemma queued_same s s' :
  i2cBuffer s' = i2cBuffer s -> i2cWriteIndex s' = i2cWriteIndex s ->
  queued s' = queued s.
Proof. unfold queued. intros -> ->. reflexivity. Qed.

(** A pass of the loop that sleeps, is woken by a wake line and finds the
    scan due. *)
Lemma loop_wake_pass inp s :
  well_formed s -> systemWakeUp s = false -> is_wake_line (wake inp) ->
  SCAN_INTERVAL_MS <= u32 (u32 (now_scan inp) - lastScanTime s) ->
  fst (loop inp s) = [ActSleep; ActScan] /\
  queued (snd (loop inp s))
  = queued s ++
    encode_all (admitted (transitions (keys_closed inp) (lastKeyState s)) s) /\
  lastKeyState (snd (loop inp s)) = sensed (keys_closed inp) <$> key_indices /\
  currentRegister (snd (loop inp s)) = currentRegister s /\
  systemWakeUp (snd (loop inp s)) = false /\
  lastScanTime (snd (loop inp s)) = u32 (now_scan inp) /\
  well_formed (snd (loop inp s)).
Proof.
  intros H Hflag Hw Hdue.
  assert (Hleb : (SCAN_INTERVAL_MS <=? u32 (u32 (now_scan inp) - lastScanTime s))
                 = true) by (apply Z.leb_le, Hdue).
  split.
  { rewrite loop_actions. cbv zeta. rewrite loop_scan_test, Hleb, Hflag.
    reflexivity. }
  split; [| split; [| split; [| split; [apply loop_clears_flag
                                        | split; [| apply loop_well_formed, H]]]]].
  all: rewrite loop_state; cbv zeta; rewrite loop_scan_test, Hleb, Hflag;
    cbn [negb].
  all: destruct (enterSleep_wake_soft (wake inp) s Hw) as (Eb & Ei & El & Er).
  all: assert (H2 : well_formed (set_systemWakeUp false (enterSleep (wake inp) s)))
    by (apply (well_formed_same (enterSleep (wake inp) s));
          [apply set_systemWakeUp_buffer | apply index_set_systemWakeUp
          | apply set_systemWakeUp_last | apply set_systemWakeUp_current |];
        apply enterSleep_well_formed, H).
  - rewrite (queued_same (scanKeypad (keys_closed inp)
                            (set_systemWakeUp false (enterSleep (wake inp) s))))
      by (apply set_lastScanTime_buffer || apply index_set_lastScanTime).
    rewrite scanKeypad_queued by apply H2.
    rewrite set_systemWakeUp_last, El.
    rewrite (queued_same s (set_systemWakeUp false (enterSleep (wake inp) s)))
      by (rewrite ?set_systemWakeUp_buffer, ?index_set_systemWakeUp; assumption).
    unfold admitted, free_bytes. rewrite index_set_systemWakeUp, Ei. reflexivity.
  - rewrite set_lastScanTime_last.
    rewrite scanKeypad_scan_spec by apply H2. apply scan_spec_last.
  - rewrite set_lastScanTime_register.
    rewrite scanKeypad_scan_spec by apply H2.
    rewrite scan_spec_register, set_systemWakeUp_register. exact Er.
  - apply set_lastScanTime_time.
Qed.

Lemma transitions_only_key row col :
  0 <= row < ROW_COUNT -> 0 <= col < COL_COUNT ->
  transitions (only_key row col) (replicate 12 0) = [(row * COL_COUNT + col, 1)].
Proof.
  unfold ROW_COUNT, COL_COUNT. intros Hrow Hcol.
  assert (Hr : row = 0 \/ row = 1 \/ row = 2 \/ row = 3) by lia.
  assert (Hc : col = 0 \/ col = 1 \/ col = 2) by lia.
  destruct Hr as [-> | [-> | [-> | ->]]]; destruct Hc as [-> | [-> | ->]];
    vm_compute; reflexivity.
Qed.

Lemma transitions_release row col :
  0 <= row < ROW_COUNT -> 0 <= col < COL_COUNT ->
  transitions no_key (sensed (only_key row col) <$> key_indices)
  = [(row * COL_COUNT + col, 0)].
Proof.
  unfold ROW_COUNT, COL_COUNT. intros Hrow Hcol.
  assert (Hr : row = 0 \/ row = 1 \/ row = 2 \/ row = 3) by lia.
  assert (Hc : col = 0 \/ col = 1 \/ col = 2) by lia.
  destruct Hr as [-> | [-> | [-> | ->]]]; destruct Hc as [-> | [-> | ->]];
    vm_compute; reflexivity.
Qed.

Lemma bus_write_selector reg s :
  bus_write [reg] s = set_currentRegister (u8 reg) s.
Proof. reflexivity. Qed.

(** The state once the host has selected and read the event buffer. *)
Lemma drained_state s :
  well_formed s ->
  let s' := snd (onI2CRequest (bus_write [REG_KEY_EVENT] s)) in
  fst (onI2CRequest (bus_write [REG_KEY_EVENT] s)) = queued s /\
  well_formed s' /\ i2cWriteIndex s' = 0 /\
  lastKeyState s' = lastKeyState s /\ systemWakeUp s' = systemWakeUp s /\
  lastScanTime s' = lastScanTime s /\ currentRegister s' = REG_KEY_EVENT.
Proof.
  intros H. cbv zeta. rewrite bus_write_selector.
  assert (Hr : currentRegister (set_currentRegister (u8 REG_KEY_EVENT) s)
               = REG_KEY_EVENT) by reflexivity.
  rewrite (onI2CRequest_event _ Hr). cbn [fst snd].
  split; [reflexivity |]. split; [| repeat split].
  destruct H as (Hok & Hi & Hk).
  split; [exact Hok |]. split; [| exact Hk].
  unfold index_ok, I2C_BUFFER_SIZE. cbn. lia.
Qed.

Lemma admitted_single e s :
  i2cWriteIndex s = 0 -> admitted [e] s = [e].
Proof. unfold admitted, free_bytes. intros ->. reflexivity. Qed.

Lemma queued_empty s : i2cWriteIndex s = 0 -> queued s = [].
Proof. unfold queued. intros ->. reflexivity. Qed.

(** X15: from a key to the host.  With the queue empty and every key
    stored as released, the chip asleep is woken by a wake line while
    exactly one switch is closed; the pass of the loop scans, and the host
    that selects and reads the event buffer gets the key index and 0x80.
    When the switch has opened again and a wake line wakes the chip once
    more, the next read gets the key index and 0x00, and the queue is
    empty after it. *)
Theorem key_press_and_release_reach_the_host row col inp1 inp2 s :
  0 <= row < ROW_COUNT -> 0 <= col < COL_COUNT ->
  well_formed s -> i2cWriteIndex s = 0 ->
  lastKeyState s = replicate 12 0 -> systemWakeUp s = false ->
  is_wake_line (wake inp1) -> keys_closed inp1 = only_key row col ->
  SCAN_INTERVAL_MS <= u32 (u32 (now_scan inp1) - lastScanTime s) ->
  is_wake_line (wake inp2) -> keys_closed inp2 = no_key ->
  SCAN_INTERVAL_MS <= u32 (u32 (now_scan inp2) - u32 (now_scan inp1)) ->
  let s1 := snd (loop inp1 s) in
  let read1 := onI2CRequest (bus_write [REG_KEY_EVENT] s1) in
  let s2 := snd (loop inp2 (snd read1)) in
  let read2 := onI2CRequest s2 in
  fst (loop inp1 s) = [ActSleep; ActScan] /\
  fst read1 = [row * COL_COUNT + col; 0x80] /\
  fst read2 = [row * COL_COUNT + col; 0x00] /\
  queued (snd read2) = [].
Proof.
  intros Hrow Hcol H Hidx Hlast Hflag Hw1 Hk1 Hdue1 Hw2 Hk2 Hdue2. cbv zeta.
  destruct (loop_wake_pass inp1 s H Hflag Hw1 Hdue1)
    as (Ha1 & Hq1 & Hl1 & _ & Hf1 & Ht1 & Hwf1).
  split; [exact Ha1 |].
  destruct (drained_state (snd (loop inp1 s)) Hwf1)
    as (Hr1 & Hwf1' & Hi1' & Hl1' & Hf1' & Ht1' & Hreg1').
  cbv zeta in Hr1, Hwf1', Hi1', Hl1', Hf1', Ht1', Hreg1'.
  assert (Hq1' : queued (snd (loop inp1 s)) = [row * COL_COUNT + col; 0x80]).
  { rewrite Hq1, Hk1, Hlast, (transitions_only_key row col Hrow Hcol).
    rewrite (admitted_single _ s Hidx), (queued_empty s Hidx). reflexivity. }
  split; [rewrite Hr1; exact Hq1' |].
  rewrite Hf1 in Hf1'. rewrite Ht1 in Ht1'. rewrite Hl1, Hk1 in Hl1'.
  assert (Hdue2' : SCAN_INTERVAL_MS <=
            u32 (u32 (now_scan inp2) -
                 lastScanTime (snd (onI2CRequest
                                      (bus_write [REG_KEY_EVENT] (snd (loop inp1 s)))))))
    by (rewrite Ht1'; exact Hdue2).
  destruct (loop_wake_pass inp2 _ Hwf1' Hf1' Hw2 Hdue2')
    as (_ & Hq2 & _ & Hreg2 & _).
  rewrite Hreg1' in Hreg2.
  rewrite (onI2CRequest_event _ Hreg2). cbn [fst snd].
  split; [| reflexivity].
  rewrite Hq2, Hk2, Hl1', (transitions_release row col Hrow Hcol).
  rewrite (admitted_single _ _ Hi1'), (queued_empty _ Hi1'). reflexivity.
Qed.

Lemma key_press_and_release_reach_the_host_witness :
  let inp1 := mkLoopInput INT0_vect 100 100 (only_key 2 1) in
  let inp2 := mkLoopInput INT1_vect 250 250 no_key in
  let read1 := onI2CRequest (bus_write [REG_KEY_EVENT] (snd (loop inp1 boot))) in
  fst read1 = [7; 0x80] /\
  fst (onI2CRequest (snd (loop inp2 (snd read1)))) = [7; 0x00].
Proof.
  cbn zeta.
  assert (H : well_formed boot).
  { split; [vm_compute; auto |]. split; [vm_compute; split; discriminate |].
    split; vm_compute; repeat constructor. }
  assert (Hrow : 0 <= 2 < ROW_COUNT) by (unfold ROW_COUNT; lia).
  assert (Hcol : 0 <= 1 < COL_COUNT) by (unfold COL_COUNT; lia).
  assert (Hdue1 : SCAN_INTERVAL_MS <= u32 (u32 100 - lastScanTime boot))
    by (vm_compute; discriminate).
  assert (Hdue2 : SCAN_INTERVAL_MS <= u32 (u32 250 - u32 100))
    by (vm_compute; discriminate).
  destruct (key_press_and_release_reach_the_host 2 1
              (mkLoopInput INT0_vect 100 100 (only_key 2 1))
              (mkLoopInput INT1_vect 250 250 no_key) boot
              Hrow Hcol H eq_refl eq_refl eq_refl I eq_refl Hdue1 I eq_refl Hdue2)
    as (_ & H1 & H2 & _).
  split; [exact H1 | exact H2].
Defined.

(** * Properties of the demonstration sketch *)

Lemma rows_idle_absorbs_rows v m :
  rows_idle (<[10 := v]> (<[5 := v]> (<[4 := v]> (<[2 := v]> m)))) = rows_idle m.
Proof.
  apply map_eq. intros pin. unfold rows_idle.
  assert (Hp : pin = 10 \/ pin = 5 \/ pin = 4 \/ pin = 2 \/
               (pin <> 10 /\ pin <> 5 /\ pin <> 4 /\ pin <> 2)) by lia.
  destruct Hp as [-> | [-> | [-> | [-> | (? & ? & ? & ?)]]]];
    repeat first [rewrite lookup_insert_eq | rewrite lookup_insert_ne by lia];
    reflexivity.
Qed.

Lemma demo_enterSleep_state irq s :
  Demo.enterSleep irq s = Demo.mkState true (rows_idle (Demo.pins s)).
Proof.
  assert (H : Demo.enterSleep irq s
              = Demo.mkState true
                  (rows_idle (<[10 := LOW]> (<[5 := LOW]> (<[4 := LOW]>
                     (<[2 := LOW]> (Demo.pins s)))))))
    by (destruct irq; reflexivity).
  rewrite H, rows_idle_absorbs_rows. reflexivity.
Qed.

Lemma demo_loop_state led irq s :
  Demo.loop led irq s
  = Demo.mkState false
      (<[led := Demo.lnot (default LOW (rows_idle (Demo.pins s) !! led))]>
         (rows_idle (Demo.pins s))).
Proof. unfold Demo.loop. rewrite demo_enterSleep_state. reflexivity. Qed.

Lemma demo_lnot_involutive v : Demo.lnot (Demo.lnot v) = v.
Proof. destruct v; reflexivity. Qed.

Lemma demo_loop_led led irq s :
  led ∉ Demo.rows ->
  Demo.digitalRead led (Demo.loop led irq s)
  = Demo.lnot (Demo.digitalRead led s).
Proof.
  intros Hled. rewrite demo_loop_state. unfold Demo.digitalRead.
  cbn [Demo.pins]. rewrite lookup_insert_eq. cbn [default].
  rewrite (rows_idle_other (Demo.pins s) led Hled). reflexivity.
Qed.



(** X17: the LED of the demonstration sketch shows the parity of the
    wake-ups: after one pass per interrupt of a series, it is back at its
    first level when the series is even in length and at the opposite
    level when it is odd. *)
Theorem demo_led_shows_the_parity_of_wakeups led irqs s :
  led ∉ Demo.rows ->
  Demo.digitalRead led (Demo.passes led irqs s)
  = if Nat.even (length irqs) then Demo.digitalRead led s
    else Demo.lnot (Demo.digitalRead led s).
Proof.
  intros Hled. revert s.
  induction irqs as [| irq irqs IH] using rev_ind; intros s; [reflexivity |].
  unfold Demo.passes in *. rewrite foldl_snoc, length_app. cbn [length].
  rewrite demo_loop_led by exact Hled. rewrite IH.
  replace (length irqs + 1)%nat with (S (length irqs)) by lia.
  rewrite Nat.even_succ, <- Nat.negb_even.
  destruct (Nat.even (length irqs)); cbn [negb];
    [reflexivity | apply demo_lnot_involutive].
Qed.

Lemma demo_led_shows_the_parity_of_wakeups_witness :
  let s := Demo.setup (Demo.mkState false ∅) in
  Demo.digitalRead 13
    (Demo.passes 13 [Demo.PCINT0_vect; Demo.PCINT2_vect; Demo.PCINT2_vect] s)
  = HIGH.
Proof.
  cbn zeta.
  rewrite (demo_led_shows_the_parity_of_wakeups 13 _ _ pin_13_is_no_row).
  reflexivity.
Defined.

(** * An interrupt inside the enqueue *)

Lemma queueKeyEvent_not_preempted keyIndex pressed s :
  queueKeyEvent_preempted keyIndex pressed [] [] s = queueKeyEvent keyIndex pressed s.
Proof. reflexivity. Qed.

Lemma push_byte_index v s :
  0 <= i2cWriteIndex s < 255 -> i2cWriteIndex (push_byte v s) = i2cWriteIndex s + 1.
Proof.
  intros H. unfold push_byte. cbn [i2cWriteIndex set_i2cWriteIndex].
  apply u8_small. unfold is_u8. lia.
Qed.

Lemma push_byte_queued v s :
  0 <= i2cWriteIndex s < 255 ->
  (Z.to_nat (i2cWriteIndex s) < length (i2cBuffer s))%nat ->
  queued (push_byte v s) = queued s ++ [v].
Proof.
  intros [Hlo Hhi] Hlt. unfold queued, push_byte.
  cbn [i2cWriteIndex i2cBuffer set_i2cWriteIndex set_i2cBuffer].
  rewrite u8_small by (unfold is_u8; lia).
  apply take_store_snoc; assumption.
Qed.

Lemma index_set_newKeyEvent b s :
  i2cWriteIndex (set_newKeyEvent b s) = i2cWriteIndex s.
Proof. reflexivity. Qed.

Lemma queued_set_newKeyEvent b s : queued (set_newKeyEvent b s) = queued s.
Proof. reflexivity. Qed.

Lemma write_of_two_data_bytes reg d1 d2 st :
  i2cWriteIndex st = 14 ->
  i2cWriteIndex (ISR (TWI_receive [reg; d1; d2]) st) = 16.
Proof.
  intros Hidx. cbn [ISR]. unfold bus_write, onI2CReceive.
  change (Z.of_nat (length [reg; d1; d2])) with 3.
  change (0 <? 3) with true. cbn [Wire_read].
  change (3 - 1) with 2. cbn [receive_data].
  change (0 <? 2) with true. change (2 - 1) with 1. change (0 <? 1) with true.
  cbn [i2cWriteIndex set_currentRegister]. rewrite Hidx.
  change (14 <? I2C_BUFFER_SIZE) with true.
  cbn [i2cWriteIndex set_i2cWriteIndex set_i2cBuffer].
  change (u8 (14 + 1) <? I2C_BUFFER_SIZE) with true.
  reflexivity.
Qed.

(** C7 (the code against the claim): the write index passes the capacity
    when a write transaction interrupts the enqueue.  With seven events
    queued the index is 14 and the guard of [queueKeyEvent] lets the
    eighth in; a write of the selector and two data bytes taken right
    after the guard moves the index to 16; the two stores of the enqueue
    then target [i2cBuffer[16]] and [i2cBuffer[17]], past the array, and
    leave the index at 18.  The same holds from every state with the index
    at 14.  Run to completion, each operation keeps the index within the
    capacity ([index_ok_kept_by_whole_operations]): the guards are there,
    a critical section around them is not. *)
Theorem write_index_passes_capacity_when_write_preempts_enqueue :
  let s := enqueue_all (replicate 7 (1, 1)) boot in
  let s' := queueKeyEvent_preempted 5 1 [TWI_receive [0x84; 1; 2]] [] s in
  i2cWriteIndex s = 14 /\ index_ok s /\
  queueKeyEvent_preempted 5 1 [] [] s = queueKeyEvent 5 1 s /\
  index_ok (queueKeyEvent 5 1 s) /\
  i2cWriteIndex (ISR (TWI_receive [0x84; 1; 2]) s) = 16 /\
  length (i2cBuffer (ISR (TWI_receive [0x84; 1; 2]) s)) = 16%nat /\
  i2cWriteIndex s' = 18 /\
  ~ index_ok s' /\
  forall st keyIndex pressed reg d1 d2,
    i2cWriteIndex st = 14 ->
    i2cWriteIndex
      (queueKeyEvent_preempted keyIndex pressed [TWI_receive [reg; d1; d2]] [] st)
    = 18.
Proof.
  cbv zeta.
  split; [vm_compute; reflexivity |].
  split; [vm_compute; split; discriminate |].
  split; [apply queueKeyEvent_not_preempted |].
  split; [vm_compute; split; discriminate |].
  split; [vm_compute; reflexivity |].
  split; [vm_compute; reflexivity |].
  split; [vm_compute; reflexivity |].
  split; [vm_compute; intros [_ H]; apply H; reflexivity |].
  intros st k p reg d1 d2 Hidx.
  unfold queueKeyEvent_preempted. rewrite Hidx.
  change (14 + 2 <=? I2C_BUFFER_SIZE) with true.
  cbn [interrupts foldl].
  pose proof (write_of_two_data_bytes reg d1 d2 st Hidx) as H16.
  rewrite index_set_newKeyEvent.
  rewrite push_byte_index; rewrite push_byte_index; rewrite ?H16; lia.
Qed.

(** X19: a read of the event buffer taken between the two stores of the
    enqueue splits the event: the host is handed the queue followed by the
    key index alone, the read resets the write index, and the status byte
    is then stored alone at the head of the queue, leaving the write index
    at 1. *)
Theorem read_inside_enqueue_splits_the_event s keyIndex pressed :
  length (i2cBuffer s) = 16%nat -> index_ok s -> 2 <= free_bytes s ->
  currentRegister s = REG_KEY_EVENT ->
  is_u8 keyIndex -> is_u8 pressed ->
  let mid := push_byte (u8 keyIndex) s in
  let s' := queueKeyEvent_preempted keyIndex pressed [] [TWI_request] s in
  s' = set_newKeyEvent true
         (push_byte (if u8 pressed =? 0 then 0x00 else 0x80)
            (snd (onI2CRequest mid))) /\
  fst (onI2CRequest mid) = queued s ++ [keyIndex] /\
  queued s' = [if pressed =? 0 then 0x00 else 0x80] /\
  i2cWriteIndex s' = 1.
Proof.
  unfold index_ok, free_bytes, I2C_BUFFER_SIZE.
  intros Hlen Hidx Hroom Hreg Hk Hp. cbv zeta.
  unfold queueKeyEvent_preempted, I2C_BUFFER_SIZE.
  destruct (Z.leb_spec (i2cWriteIndex s + 2) 16) as [_ | ?]; [| lia].
  cbn [interrupts foldl ISR].
  split; [reflexivity |].
  assert (Hmid : currentRegister (push_byte (u8 keyIndex) s) = REG_KEY_EVENT)
    by exact Hreg.
  rewrite (onI2CRequest_event _ Hmid). cbn [fst snd].
  split.
  { rewrite push_byte_queued by lia. rewrite (u8_small keyIndex Hk). reflexivity. }
  rewrite (u8_small pressed Hp).
  assert (H0 : i2cWriteIndex (set_i2cWriteIndex 0 (push_byte (u8 keyIndex) s)) = 0)
    by reflexivity.
  assert (Hl : length (i2cBuffer (set_i2cWriteIndex 0 (push_byte (u8 keyIndex) s)))
               = 16%nat).
  { unfold push_byte. cbn [i2cBuffer set_i2cWriteIndex set_i2cBuffer].
    rewrite length_store. exact Hlen. }
  split.
  - rewrite queued_set_newKeyEvent.
    rewrite push_byte_queued by (rewrite ?H0, ?Hl; lia).
    unfold queued. rewrite H0. reflexivity.
  - rewrite index_set_newKeyEvent.
    rewrite push_byte_index by (rewrite H0; lia). rewrite H0. reflexivity.
Qed.

Lemma read_inside_enqueue_splits_the_event_witness :
  let s := bus_write [0x84] boot in
  fst (onI2CRequest (push_byte (u8 5) s)) = [5] /\
  queued (queueKeyEvent_preempted 5 1 [] [TWI_request] s) = [0x80].
Proof.
  cbn zeta.
  assert (H1 : length (i2cBuffer (bus_write [0x84] boot)) = 16%nat)
    by (vm_compute; reflexivity).
  assert (H2 : index_ok (bus_write [0x84] boot))
    by (vm_compute; split; discriminate).
  assert (H3 : 2 <= free_bytes (bus_write [0x84] boot))
    by (vm_compute; discriminate).
  assert (H4 : currentRegister (bus_write [0x84] boot) = REG_KEY_EVENT)
    by (vm_compute; reflexivity).
  assert (H5 : is_u8 5) by (unfold is_u8; lia).
  assert (H6 : is_u8 1) by (unfold is_u8; lia).
  destruct (read_inside_enqueue_splits_the_event
              (bus_write [0x84] boot) 5 1 H1 H2 H3 H4 H5 H6)
    as (_ & Hr & Hq & _).
  split; [rewrite Hr; vm_compute; reflexivity | exact Hq].
Defined.
